(** * Noesis: the note/link store and the graph materializer

    A shallow embedding of [api/graph.py] (the stateless graph builder
    and its POST handler), [api/models.py], [api/schemas.py] and
    [api/main.py] (the store-backed endpoints),
    together with the properties the specification states about them and
    further properties read off the code. *)

From Stdlib Require Import Ascii String ZArith Lia.
From stdpp Require Import gmap strings list sorting.

Local Open Scope string_scope.
Local Open Scope Z_scope.
Local Open Scope list_scope.

Set Warnings "-register-all".

(** * Python exceptions and results *)

(** The exceptions the modelled code can raise.  [HTTPException] is the
    one the handlers raise on purpose; [RequestValidationError] is raised
    when a request body does not fit its schema; the others escape from an
    attribute access, from the storage layer or from a response model. *)
Inductive exn : Type :=
| HTTPException (status_code : Z) (detail : string)
| AttributeError (msg : string)
| IntegrityError (msg : string)
| DBAPIError (msg : string)
| PydanticValidationError (msg : string)
| RequestValidationError (msg : string)
| OverflowError (msg : string).

Inductive result (A : Type) : Type :=
| Ok (a : A)
| Raise (e : exn).
Arguments Ok {A} a.
Arguments Raise {A} e.

(** Sequencing: a raised exception ends the computation. *)
#[global] Instance result_bind : MBind result := λ A B k r,
  match r with
  | Ok a => k a
  | Raise e => Raise e
  end.

Definition is_ok {A : Type} (r : result A) : Prop :=
  match r with Ok _ => True | Raise _ => False end.

(** [starlette.status] *)
Definition HTTP_400_BAD_REQUEST : Z := 400.
Definition HTTP_404_NOT_FOUND : Z := 404.
Definition HTTP_422_UNPROCESSABLE_ENTITY : Z := 422.
Definition HTTP_500_INTERNAL_SERVER_ERROR : Z := 500.

(** The status line a client receives: [http_exception_handler] answers an
    [HTTPException] with its own status code, the framework answers a
    [RequestValidationError] with 422, [general_exception_handler] answers
    every other exception with 500. *)
Definition status_of (e : exn) : Z :=
  match e with
  | HTTPException c _ => c
  | RequestValidationError _ => HTTP_422_UNPROCESSABLE_ENTITY
  | _ => HTTP_500_INTERNAL_SERVER_ERROR
  end.

(** The error taxonomy of the specification, read off the status code. *)
Inductive ErrorKind : Type :=
| ValidationError
| NotFound
| ConflictError
| InternalError.

Definition kind_of_status (c : Z) : ErrorKind :=
  if decide (c = 400 ∨ c = 422) then ValidationError
  else if decide (c = 404) then NotFound
  else if decide (c = 409) then ConflictError
  else InternalError.

Definition error_kind (e : exn) : ErrorKind := kind_of_status (status_of e).

Definition fails_with {A : Type} (r : result A) (k : ErrorKind) : Prop :=
  match r with
  | Ok _ => False
  | Raise e => error_kind e = k
  end.

(** * The stateless graph builder of [api/graph.py] *)

Module Graph.

(** A value as [json.loads] delivers it.  A number is an integer here;
    the builder treats every number alike. *)
Inductive json : Type :=
| JNull
| JBool (b : bool)
| JNumber (n : Z)
| JString (s : string)
| JList (l : list json)
| JDict (d : gmap string json).

Record node : Type := mk_node {
  node_id : string;
  node_title : json;
  node_domain : json
}.

Record edge : Type := mk_edge {
  source : string;
  target : string
}.

Record graph : Type := mk_graph {
  nodes : list node;
  edges : list edge
}.

(** [note.get(key)]: only a dict has the method. *)
Definition get (note : json) (key : string) : result (option json) :=
  match note with
  | JDict d => Ok (d !! key)
  | JNull => Raise (AttributeError "'NoneType' object has no attribute 'get'")
  | JBool _ => Raise (AttributeError "'bool' object has no attribute 'get'")
  | JNumber _ => Raise (AttributeError "'int' object has no attribute 'get'")
  | JString _ => Raise (AttributeError "'str' object has no attribute 'get'")
  | JList _ => Raise (AttributeError "'list' object has no attribute 'get'")
  end.

(** [note.get(key, default)] *)
Definition get_default (note : json) (key : string) (default : json) : result json :=
  v ← get note key; Ok (from_option id default v).

(** The guard [not x or not isinstance(x, str)] of both loops, inverted:
    the identifier when [x] is a non-empty string. *)
Definition usable_id (x : option json) : option string :=
  match x with
  | Some (JString s) => if decide (s = "") then None else Some s
  | _ => None
  end.

(** First loop: the node list, with [seen_ids] and [nodes] threaded. *)
Fixpoint node_loop (notes : list json) (seen_ids : gset string) (nodes : list node)
  : result (list node) :=
  match notes with
  | [] => Ok nodes
  | note :: rest =>
      x ← get note "id";
      match usable_id x with
      | None => node_loop rest seen_ids nodes
      | Some node_id =>
          if decide (node_id ∈ seen_ids) then node_loop rest seen_ids nodes
          else
            t ← get_default note "title" (JString node_id);
            d ← get_default note "domain" (JString "default");
            node_loop rest ({[node_id]} ∪ seen_ids) (nodes ++ [mk_node node_id t d])
      end
  end.

(** The inner loop over [links]. *)
Fixpoint target_loop (source_id : string) (links : list json) (edges : list edge)
  : list edge :=
  match links with
  | [] => edges
  | JString target_id :: rest => target_loop source_id rest (edges ++ [mk_edge source_id target_id])
  | _ :: rest => target_loop source_id rest edges
  end.

(** Second loop: the edge list. *)
Fixpoint edge_loop (notes : list json) (edges : list edge) : result (list edge) :=
  match notes with
  | [] => Ok edges
  | note :: rest =>
      x ← get note "id";
      match usable_id x with
      | None => edge_loop rest edges
      | Some source_id =>
          links ← get_default note "links" (JList []);
          match links with
          | JList ls => edge_loop rest (target_loop source_id ls edges)
          | _ => edge_loop rest edges
          end
      end
  end.

Definition _build_graph_from_notes (notes : list json) : result graph :=
  ns ← node_loop notes ∅ [];
  es ← edge_loop notes [];
  Ok (mk_graph ns es).

End Graph.


(** * Python strings *)

(** [str.isspace] on one character, for code points below 256 (a
    character of a Rocq [string] stands for the code point of its
    number). *)
Definition isspace (c : ascii) : bool :=
  let n := nat_of_ascii c in
  ((9 <=? n) && (n <=? 13) || (28 <=? n) && (n <=? 32) || (n =? 133) || (n =? 160))%nat.

Fixpoint lstrip (s : string) : string :=
  match s with
  | EmptyString => EmptyString
  | String c r => if isspace c then lstrip r else s
  end.

Fixpoint rstrip (s : string) : string :=
  match s with
  | EmptyString => EmptyString
  | String c r =>
      match rstrip r with
      | EmptyString => if isspace c then EmptyString else String c EmptyString
      | r' => String c r'
      end
  end.

(** [str.strip()] *)
Definition strip (s : string) : string := rstrip (lstrip s).

(** Every character of the string is white space (the empty string
    included). *)
Fixpoint blank (s : string) : bool :=
  match s with
  | EmptyString => true
  | String c r => isspace c && blank r
  end.

(** * The store-backed API of [api/main.py] *)

Module Store.

(** [fastapi.status], which re-exports [starlette.status]: the attributes
    the handlers read.  Reading any
    other name raises [AttributeError], as a module attribute lookup
    does. *)
Definition status (name : string) : result Z :=
  if decide (name = "HTTP_201_CREATED") then Ok 201
  else if decide (name = "HTTP_400_BAD_REQUEST") then Ok HTTP_400_BAD_REQUEST
  else if decide (name = "HTTP_404_NOT_FOUND") then Ok HTTP_404_NOT_FOUND
  else if decide (name = "HTTP_500_INTERNAL_SERVER_ERROR") then Ok HTTP_500_INTERNAL_SERVER_ERROR
  else if decide (name = "HTTP_503_SERVICE_UNAVAILABLE") then Ok 503
  else Raise (AttributeError ("module 'starlette.status' has no attribute '" +:+ name +:+ "'")).

(** [raise HTTPException(status_code=status.<name>, detail=...)]: the
    status attribute is evaluated first. *)
Definition raise_http {A : Type} (name : string) (detail : string) : result A :=
  match status name with
  | Ok c => Raise (HTTPException c detail)
  | Raise e => Raise e
  end.

(** ** [models.py] *)

Inductive NoteType : Type := IDEA | QUESTION | DEFINITION.
Inductive Domain : Type := PHYSICS | SECURITY | PHILOSOPHY | PERSONAL | OTHER.
Inductive RelationType : Type := SUPPORTS | CONTRADICTS | EXTENDS | REFERENCES.

#[global] Instance NoteType_eq_dec : EqDecision NoteType.
Proof. solve_decision. Defined.
#[global] Instance Domain_eq_dec : EqDecision Domain.
Proof. solve_decision. Defined.
#[global] Instance RelationType_eq_dec : EqDecision RelationType.
Proof. solve_decision. Defined.

(** Timestamps are instants on a line; [None] is SQL [NULL]. *)
Module Note.
Record t : Type := mk {
  id : string;
  title : string;
  content : string;
  note_type : NoteType;
  domain : Domain;
  created_at : Z;
  updated_at : option Z
}.
End Note.

Module NoteVersion.
Record t : Type := mk {
  id : string;
  note_id : string;
  old_content : string;
  change_reason : string;
  changed_at : Z
}.
End NoteVersion.

(** [from_id] and [to_id] are nullable foreign keys. *)
Module Link.
Record t : Type := mk {
  id : string;
  from_id : option string;
  to_id : option string;
  relation : RelationType;
  created_at : Z
}.
End Link.

(** The three tables, rows in insertion order. *)
Record db : Type := mk_db {
  notes : list Note.t;
  note_versions : list NoteVersion.t;
  links : list Link.t
}.

(** ** [schemas.py] *)

Module NoteCreate.
Record t : Type := mk {
  title : string;
  content : string;
  note_type : NoteType;
  domain : Domain
}.
End NoteCreate.

Module NoteUpdate.
Record t : Type := mk {
  title : option string;
  content : option string;
  note_type : option NoteType;
  domain : option Domain;
  change_reason : string
}.
End NoteUpdate.

(** The [Field] constraints of [NoteUpdate], checked when the request
    body is parsed, before the handler runs: a given [title] has 1 to 200
    characters, [change_reason] has at least one. *)
Definition validate_NoteUpdate (body : NoteUpdate.t) : result NoteUpdate.t :=
  let title_ok := match NoteUpdate.title body with
                  | Some t => bool_decide (1 ≤ String.length t ≤ 200)%nat
                  | None => true
                  end in
  if title_ok then
    if decide (1 ≤ String.length (NoteUpdate.change_reason body))%nat then Ok body
    else Raise (RequestValidationError "String should have at least 1 character")
  else Raise (RequestValidationError "String should have 1 to 200 characters").

Module LinkCreate.
Record t : Type := mk {
  from_id : string;
  to_id : string;
  relation : RelationType
}.
End LinkCreate.

Module GraphNode.
Record t : Type := mk {
  id : string;
  title : string;
  note_type : NoteType;
  domain : Domain
}.
End GraphNode.

Module GraphEdge.
Record t : Type := mk {
  id : string;
  source : string;
  target : string;
  relation : RelationType
}.
End GraphEdge.

Module GraphResponse.
Record t : Type := mk {
  nodes : list GraphNode.t;
  edges : list GraphEdge.t
}.
End GraphResponse.

Module NoteWithLinksResponse.
Record t : Type := mk {
  note : Note.t;
  outgoing_links : list (string * option string * RelationType);
  incoming_links : list (string * option string * RelationType);
  versions : list NoteVersion.t
}.
End NoteWithLinksResponse.

(** The dict [delete_note] returns. *)
Module Deleted.
Record t : Type := mk {
  message : string;
  note_id : string;
  timestamp : Z
}.
End Deleted.

(** ** The storage layer *)

(** [query.first()] *)
Definition first {A : Type} (rows : list A) : option A := head rows.

(** [query.order_by(key.desc())]: rows by decreasing key.  The query has
    no second key: rows with equal keys come in table order, the older
    row first. *)
Fixpoint insert_desc {A : Type} (key : A → Z) (a : A) (sorted : list A) : list A :=
  match sorted with
  | [] => [a]
  | b :: rest => if decide (key a < key b) then b :: insert_desc key a rest else a :: b :: rest
  end.

Definition order_by_desc {A : Type} (key : A → Z) (rows : list A) : list A :=
  foldr (insert_desc key) [] rows.

(** How the engine behind [get_db] reads a negative [OFFSET] or [LIMIT].
    [database.py] is not part of the sources, so the engine is a
    parameter: SQLite takes a negative [LIMIT] as no limit and a negative
    [OFFSET] as zero; PostgreSQL and MySQL reject the statement. *)
Inductive negative_paging : Type := Unbounded | Rejected.

(** A bound parameter of a statement is a signed 64-bit integer. *)
Definition int64 (n : Z) : Prop := - 2 ^ 63 ≤ n < 2 ^ 63.

#[global] Instance int64_dec n : Decision (int64 n).
Proof. unfold int64. apply _. Defined.

(** [query.offset(skip).limit(limit).all()]: [skip] and [limit] are sent
    as bound parameters; a Python int outside the 64-bit range cannot be
    bound and the query raises before any row is read. *)
Definition offset_limit {A : Type} (engine : negative_paging) (skip limit : Z)
    (rows : list A) : result (list A) :=
  if decide (int64 skip ∧ int64 limit) then
    if decide (0 ≤ skip ∧ 0 ≤ limit)
    then Ok (take (Z.to_nat limit) (drop (Z.to_nat skip) rows))
    else
      match engine with
      | Unbounded =>
          let rows' := drop (Z.to_nat skip) rows in
          Ok (if decide (limit < 0) then rows' else take (Z.to_nat limit) rows')
      | Rejected => Raise (DBAPIError "OFFSET and LIMIT must not be negative")
      end
  else
    match engine with
    | Unbounded => Raise (OverflowError "Python int too large to convert to SQLite INTEGER")
    | Rejected => Raise (DBAPIError "value out of range for type bigint")
    end.

(** [column.in_(values)]: [NULL IN (...)] is not true. *)
Definition in_ (x : option string) (values : list string) : Prop :=
  match x with
  | Some v => v ∈ values
  | None => False
  end.

#[global] Instance in__dec x values : Decision (in_ x values).
Proof. destruct x; simpl; apply _. Defined.

(** [db.delete(note)] followed by the flush, as [models.py] configures the
    relationships of [Note]: [versions] carries
    [cascade="all, delete-orphan"], so the unit of work deletes the
    versions of the note; [outgoing_links] and [incoming_links] carry no
    delete cascade and no [passive_deletes], so the unit of work
    de-associates their rows from the deleted parent by setting the
    foreign key column to [NULL]; then the row of the note is deleted.  No
    row refers to the note any more when the [DELETE] reaches the
    database, so [ondelete="CASCADE"] of the foreign keys removes nothing. *)
Definition detach (note_id : string) (l : Link.t) : Link.t :=
  Link.mk (Link.id l)
    (if decide (Link.from_id l = Some note_id) then None else Link.from_id l)
    (if decide (Link.to_id l = Some note_id) then None else Link.to_id l)
    (Link.relation l) (Link.created_at l).

Definition session_delete_note (note : Note.t) (s : db) : db :=
  mk_db (filter (λ n, Note.id n ≠ Note.id note) (notes s))
        (filter (λ v, NoteVersion.note_id v ≠ Note.id note) (note_versions s))
        (detach (Note.id note) <$> links s).

(** The text of the engine's primary-key violation. *)
Definition unique_failed (table : string) : exn :=
  IntegrityError ("UNIQUE constraint failed: " +:+ table +:+ ".id").

(** [str(e)] *)
Definition str (e : exn) : string :=
  match e with
  | HTTPException _ d => d
  | AttributeError m | IntegrityError m | DBAPIError m | PydanticValidationError m
  | RequestValidationError m | OverflowError m => m
  end.

(** [db.add(row); db.commit()] on each table: the primary key must be
    new. *)
Definition insert_note (n : Note.t) (s : db) : result db :=
  if decide (Note.id n ∈ Note.id <$> notes s) then Raise (unique_failed "notes")
  else Ok (mk_db (notes s ++ [n]) (note_versions s) (links s)).

Definition insert_version (v : NoteVersion.t) (s : db) : result db :=
  if decide (NoteVersion.id v ∈ NoteVersion.id <$> note_versions s)
  then Raise (unique_failed "note_versions")
  else Ok (mk_db (notes s) (note_versions s ++ [v]) (links s)).

Definition insert_link (l : Link.t) (s : db) : result db :=
  if decide (Link.id l ∈ Link.id <$> links s) then Raise (unique_failed "links")
  else Ok (mk_db (notes s) (note_versions s) (links s ++ [l])).

(** The [UPDATE] of a loaded note. *)
Definition write_note (n : Note.t) (s : db) : db :=
  mk_db ((λ m, if decide (Note.id m = Note.id n) then n else m) <$> notes s)
        (note_versions s) (links s).

(** ** Note endpoints

    Each handler takes the values it draws from its environment as
    arguments: [uuid4] for [str(uuid.uuid4())], [now] for the server
    default [func.now()] of a timestamp column, [utcnow] for
    [datetime.utcnow()].  A handler returns its result and the store it
    leaves. *)

Definition create_note (note : NoteCreate.t) (uuid4 uuid4' : string) (now now' : Z)
    (s : db) : result Note.t * db :=
  let db_note := Note.mk uuid4 (strip (NoteCreate.title note)) (strip (NoteCreate.content note))
                   (NoteCreate.note_type note) (NoteCreate.domain note) now None in
  match insert_note db_note s with
  | Raise e =>
      (raise_http "HTTP_500_INTERNAL_SERVER_ERROR" ("Failed to create note: " +:+ str e), s)
  | Ok s1 =>
      let version := NoteVersion.mk uuid4' (Note.id db_note) "" "Initial creation" now' in
      match insert_version version s1 with
      | Raise e =>
          (raise_http "HTTP_500_INTERNAL_SERVER_ERROR" ("Failed to create note: " +:+ str e), s1)
      | Ok s2 => (Ok db_note, s2)
      end
  end.

Definition get_all_notes (engine : negative_paging) (skip limit : Z)
    (domain : option Domain) (note_type : option NoteType) (s : db) : result (list Note.t) :=
  let query := notes s in
  let query := match domain with
               | Some d => filter (λ n, Note.domain n = d) query
               | None => query
               end in
  let query := match note_type with
               | Some t => filter (λ n, Note.note_type n = t) query
               | None => query
               end in
  offset_limit engine skip limit (order_by_desc Note.created_at query).

Definition get_note (note_id : string) (s : db) : result NoteWithLinksResponse.t :=
  match first (filter (λ n, Note.id n = note_id) (notes s)) with
  | None => raise_http "HTTP_404_NOT_FOUND" ("Note with ID " +:+ note_id +:+ " not found")
  | Some note =>
      let versions := order_by_desc NoteVersion.changed_at
                        (filter (λ v, NoteVersion.note_id v = note_id) (note_versions s)) in
      let outgoing := filter (λ l, Link.from_id l = Some note_id) (links s) in
      let incoming := filter (λ l, Link.to_id l = Some note_id) (links s) in
      (* NoteWithLinksResponse(...): [title] is a [Field] of 1 to 200 characters *)
      if decide (String.length (Note.title note) < 1)%nat
      then Raise (PydanticValidationError "String should have at least 1 character")
      else if decide (200 < String.length (Note.title note))%nat
      then Raise (PydanticValidationError "String should have at most 200 characters")
      else
        Ok (NoteWithLinksResponse.mk note
              ((λ l, (Link.id l, Link.to_id l, Link.relation l)) <$> outgoing)
              ((λ l, (Link.id l, Link.from_id l, Link.relation l)) <$> incoming)
              versions)
  end.

Definition update_note (note_id : string) (update_data : NoteUpdate.t) (uuid4 : string)
    (now utcnow : Z) (s : db) : result Note.t * db :=
  match first (filter (λ n, Note.id n = note_id) (notes s)) with
  | None => (raise_http "HTTP_404_NOT_FOUND" ("Note with ID " +:+ note_id +:+ " not found"), s)
  | Some note =>
      if decide (NoteUpdate.change_reason update_data = ""
                 ∨ strip (NoteUpdate.change_reason update_data) = "")
      then (raise_http "HTTP_400_BAD_REQUEST" "Change reason is required for updates", s)
      else
        let version := NoteVersion.mk uuid4 note_id (Note.content note)
                         (strip (NoteUpdate.change_reason update_data)) now in
        let note' :=
          Note.mk (Note.id note)
            (from_option strip (Note.title note) (NoteUpdate.title update_data))
            (from_option strip (Note.content note) (NoteUpdate.content update_data))
            (default (Note.note_type note) (NoteUpdate.note_type update_data))
            (default (Note.domain note) (NoteUpdate.domain update_data))
            (Note.created_at note) (Some utcnow) in
        match insert_version version s with
        | Raise e =>
            (raise_http "HTTP_500_INTERNAL_SERVER_ERROR" ("Failed to update note: " +:+ str e), s)
        | Ok s1 => (Ok note', write_note note' s1)
        end
  end.

Definition delete_note (note_id : string) (utcnow : Z) (s : db) : result Deleted.t * db :=
  match first (filter (λ n, Note.id n = note_id) (notes s)) with
  | None => (raise_http "HTTP_404_NOT_FOUND" ("Note with ID " +:+ note_id +:+ " not found"), s)
  | Some note =>
      (Ok (Deleted.mk "Note deleted successfully" note_id utcnow), session_delete_note note s)
  end.

(** The status attribute of the 404 is spelled [HTP_404_NOT_FOUND] in this
    handler. *)
Definition get_note_versions (note_id : string) (s : db) : result (list NoteVersion.t) :=
  match first (filter (λ n, Note.id n = note_id) (notes s)) with
  | None => raise_http "HTP_404_NOT_FOUND" ("Note with ID " +:+ note_id +:+ " not found")
  | Some note =>
      Ok (order_by_desc NoteVersion.changed_at
            (filter (λ v, NoteVersion.note_id v = note_id) (note_versions s)))
  end.

(** ** Link endpoints *)

Definition create_link (link : LinkCreate.t) (uuid4 : string) (now : Z) (s : db)
  : result Link.t * db :=
  let from_note := first (filter (λ n, Note.id n = LinkCreate.from_id link) (notes s)) in
  let to_note := first (filter (λ n, Note.id n = LinkCreate.to_id link) (notes s)) in
  match from_note, to_note with
  | None, _ =>
      (raise_http "HTTP_404_NOT_FOUND"
         ("Source note with ID " +:+ LinkCreate.from_id link +:+ " not found"), s)
  | Some _, None =>
      (raise_http "HTTP_404_NOT_FOUND"
         ("Target note with ID " +:+ LinkCreate.to_id link +:+ " not found"), s)
  | Some _, Some _ =>
      if decide (LinkCreate.from_id link = LinkCreate.to_id link)
      then (raise_http "HTTP_400_BAD_REQUEST" "Cannot link a note to itself", s)
      else
        match first (filter (λ l, Link.from_id l = Some (LinkCreate.from_id link)
                                  ∧ Link.to_id l = Some (LinkCreate.to_id link)) (links s)) with
        | Some _ =>
            (raise_http "HTTP_400_BAD_REQUEST" "Link already exists between these notes", s)
        | None =>
            let db_link := Link.mk uuid4 (Some (LinkCreate.from_id link))
                             (Some (LinkCreate.to_id link)) (LinkCreate.relation link) now in
            match insert_link db_link s with
            | Raise e =>
                (raise_http "HTTP_500_INTERNAL_SERVER_ERROR"
                   ("Failed to create link: " +:+ str e), s)
            | Ok s1 => (Ok db_link, s1)
            end
        end
  end.

(** ** Graph endpoint *)

(** [GraphEdge(id=link.id, source=link.from_id, target=link.to_id, ...)]:
    [source] and [target] are declared [str], so the model refuses
    [None]. *)
Definition graph_edge (link : Link.t) : result GraphEdge.t :=
  match Link.from_id link, Link.to_id link with
  | Some f, Some t => Ok (GraphEdge.mk (Link.id link) f t (Link.relation link))
  | _, _ => Raise (PydanticValidationError "Input should be a valid string")
  end.

Fixpoint graph_edges (links : list Link.t) : result (list GraphEdge.t) :=
  match links with
  | [] => Ok []
  | link :: rest =>
      e ← graph_edge link;
      es ← graph_edges rest;
      Ok (e :: es)
  end.

Definition get_graph_data (domain : option Domain) (s : db) : result GraphResponse.t :=
  let notes := match domain with
               | Some d => filter (λ n, Note.domain n = d) (notes s)
               | None => notes s
               end in
  let note_ids := Note.id <$> notes in
  let links := filter (λ l, in_ (Link.from_id l) note_ids ∧ in_ (Link.to_id l) note_ids)
                 (links s) in
  let nodes := (λ note, GraphNode.mk (Note.id note) (Note.title note)
                          (Note.note_type note) (Note.domain note)) <$> notes in
  edges ← graph_edges links;
  Ok (GraphResponse.mk nodes edges).

(** ** Link listings and link deletion *)

Definition get_outgoing_links (note_id : string) (s : db) : result (list Link.t) :=
  match first (filter (λ n, Note.id n = note_id) (notes s)) with
  | None => raise_http "HTTP_404_NOT_FOUND" ("Note with ID " +:+ note_id +:+ " not found")
  | Some note => Ok (filter (λ l, Link.from_id l = Some note_id) (links s))
  end.

Definition get_incoming_links (note_id : string) (s : db) : result (list Link.t) :=
  match first (filter (λ n, Note.id n = note_id) (notes s)) with
  | None => raise_http "HTTP_404_NOT_FOUND" ("Note with ID " +:+ note_id +:+ " not found")
  | Some note => Ok (filter (λ l, Link.to_id l = Some note_id) (links s))
  end.

(** The response model [LinkResponse] of the two listing routes: both
    endpoints are declared [str]. *)
Module LinkResponse.
Record t : Type := mk {
  id : string;
  from_id : string;
  to_id : string;
  relation : RelationType;
  created_at : Z
}.
End LinkResponse.

(** Serializing a link row through [LinkResponse]: a null endpoint does
    not validate, and the request ends in a response validation error. *)
Definition link_response (link : Link.t) : result LinkResponse.t :=
  match Link.from_id link, Link.to_id link with
  | Some f, Some t =>
      Ok (LinkResponse.mk (Link.id link) f t (Link.relation link) (Link.created_at link))
  | _, _ => Raise (PydanticValidationError "Input should be a valid string")
  end.

Fixpoint link_responses (links : list Link.t) : result (list LinkResponse.t) :=
  match links with
  | [] => Ok []
  | link :: rest =>
      r ← link_response link;
      rs ← link_responses rest;
      Ok (r :: rs)
  end.

(** What a route declared with [response_model=List[LinkResponse]] sends
    for the value its handler returns. *)
Definition serve_links (returned : result (list Link.t)) : result (list LinkResponse.t) :=
  links ← returned; link_responses links.

(** The dict [delete_link] returns. *)
Module DeletedLink.
Record t : Type := mk {
  message : string;
  link_id : string;
  timestamp : Z
}.
End DeletedLink.

(** [db.delete(link)]: [Link] has only many-to-one relationships, so
    nothing but the row itself is touched. *)
Definition delete_link (link_id : string) (utcnow : Z) (s : db) : result DeletedLink.t * db :=
  match first (filter (λ l, Link.id l = link_id) (links s)) with
  | None => (raise_http "HTTP_404_NOT_FOUND" ("Link with ID " +:+ link_id +:+ " not found"), s)
  | Some link =>
      (Ok (DeletedLink.mk "Link deleted successfully" link_id utcnow),
       mk_db (notes s) (note_versions s) (filter (λ l, Link.id l ≠ Link.id link) (links s)))
  end.

(** ** Statistics endpoint *)

(** [domain.value] *)
Definition Domain_value (d : Domain) : string :=
  match d with
  | PHYSICS => "physics"
  | SECURITY => "security"
  | PHILOSOPHY => "philosophy"
  | PERSONAL => "personal"
  | OTHER => "other"
  end.

(** [for domain in Domain], in definition order. *)
Definition Domain_members : list Domain := [PHYSICS; SECURITY; PHILOSOPHY; PERSONAL; OTHER].

(** The dict [get_statistics] returns, the ["by_type"] dict flattened
    into its three keys. *)
Module Statistics.
Record t : Type := mk {
  total_notes : nat;
  total_links : nat;
  total_versions : nat;
  ideas : nat;
  questions : nat;
  definitions : nat;
  by_domain : gmap string nat;
  timestamp : Z
}.
End Statistics.

(** The loop that fills [domains]. *)
Fixpoint domain_counts (members : list Domain) (s : db) (domains : gmap string nat)
  : gmap string nat :=
  match members with
  | [] => domains
  | domain :: rest =>
      let count := length (filter (λ n, Note.domain n = domain) (notes s)) in
      domain_counts rest s
        (if decide (0 < count)%nat then <[Domain_value domain := count]> domains else domains)
  end.

Definition get_statistics (utcnow : Z) (s : db) : Statistics.t :=
  let total_notes := length (notes s) in
  let total_links := length (links s) in
  let total_versions := length (note_versions s) in
  let ideas := length (filter (λ n, Note.note_type n = IDEA) (notes s)) in
  let questions := length (filter (λ n, Note.note_type n = QUESTION) (notes s)) in
  let definitions := length (filter (λ n, Note.note_type n = DEFINITION) (notes s)) in
  let domains := domain_counts Domain_members s ∅ in
  Statistics.mk total_notes total_links total_versions ideas questions definitions
    domains utcnow.

End Store.

(** * The POST handler of [api/graph.py]

    The handler is taken from the point where [_read_json_body] has
    returned: [body] is the parsed value, [JNull] standing for [None]
    (no body, an unreadable one, or the JSON text [null]).  The handler
    answers with a status and a JSON payload, or raises. *)

Module Handler.
Import Graph.

Record response : Type := mk_response {
  status_code : Z;
  payload : json
}.

(** [_set_headers(400)] followed by the ["error"] payload. *)
Definition bad_request (error : string) : response :=
  mk_response 400 (JDict {[ "error" := JString error ]}).

(** The graph as [json.dumps] receives it. *)
Definition node_json (n : node) : json :=
  JDict {[ "id" := JString (node_id n); "title" := node_title n; "domain" := node_domain n ]}.

Definition edge_json (e : edge) : json :=
  JDict {[ "source" := JString (source e); "target" := JString (target e) ]}.

Definition graph_json (g : graph) : json :=
  JDict {[ "nodes" := JList (node_json <$> nodes g); "edges" := JList (edge_json <$> edges g) ]}.

(** The identifiers that have a node. *)
Definition node_ids (ns : list node) : gset string := list_to_set (node_id <$> ns).

End Handler.

(** [api/graph.py] *)
Module GraphHandler.
Import Graph Handler.

Definition do_POST (body : json) : result response :=
  match body with
  | JNull => Ok (bad_request "Invalid or missing JSON body")
  | _ =>
      notes ← get body "notes";
      match notes with
      | Some (JList notes) =>
          graph ← _build_graph_from_notes notes;
          Ok (mk_response 200
                (JDict {[ "graph" := graph_json graph;
                          "message" := JString "Graph computed from provided notes (stateless)." ]}))
      | _ => Ok (bad_request "'notes' must be a list of note objects")
      end
  end.

End GraphHandler.

(** * What the specification says about the graph builder *)

Module GraphSpec.
Import Graph.

(** A note object: a JSON object. *)
Definition is_note (x : json) : Prop :=
  match x with JDict _ => True | _ => False end.

#[global] Instance is_note_dec x : Decision (is_note x).
Proof. destruct x; simpl; apply _. Defined.

(** The identifier an entry declares: its ["id"] when that is a non-empty
    string. *)
Definition declared_id (x : json) : option string :=
  match x with
  | JDict d => usable_id (d !! "id")
  | _ => None
  end.

(** Entry [i] is the first entry of the collection that declares the
    identifier [s]. *)
Definition first_with_id (notes : list json) (i : nat) (s : string) : Prop :=
  (∃ x, notes !! i = Some x ∧ declared_id x = Some s)
  ∧ ∀ j x, (j < i)%nat → notes !! j = Some x → declared_id x ≠ Some s.

(** The node of an entry: the title defaults to the identifier, the domain
    to the fixed fallback. *)
Definition node_of (d : gmap string json) (s : string) : node :=
  mk_node s (default (JString s) (d !! "title")) (default (JString "default") (d !! "domain")).

(** One edge per string in the ["links"] list of an entry that declares an
    identifier. *)
Definition link_target (source_id : string) (t : json) : option edge :=
  match t with
  | JString target_id => Some (mk_edge source_id target_id)
  | _ => None
  end.

Definition declared_edges (x : json) : list edge :=
  match x with
  | JDict d =>
      match usable_id (d !! "id"), d !! "links" with
      | Some s, Some (JList ls) => omap (link_target s) ls
      | _, _ => []
      end
  | _ => []
  end.

(** The nodes of the entries whose identifier is neither in [seen] nor
    declared by an earlier entry. *)
Definition fields (x : json) : gmap string json :=
  match x with JDict d => d | _ => ∅ end.

Fixpoint nodes_from (notes : list json) (seen : gset string) : list node :=
  match notes with
  | [] => []
  | x :: rest =>
      match declared_id x with
      | Some s =>
          if decide (s ∈ seen) then nodes_from rest seen
          else node_of (fields x) s :: nodes_from rest ({[s]} ∪ seen)
      | None => nodes_from rest seen
      end
  end.

(** The collection of the specification's example. *)
Definition example_notes : list json :=
  [JDict {[ "id" := JString "a"; "title" := JString "A"; "links" := JList [JString "b"] ]};
   JDict {[ "id" := JString "a"; "title" := JString "A2"; "links" := JList [] ]}].

Definition example_graph : graph :=
  mk_graph [mk_node "a" (JString "A") (JString "default")] [mk_edge "a" "b"].

End GraphSpec.

(** * What the specification says about the store *)

Module StoreSpec.
Import Store.

(** The note is in the store. *)
Definition present (note_id : string) (s : db) : Prop :=
  note_id ∈ Note.id <$> notes s.

(** The version records of a note, in table order. *)
Definition versions_of (note_id : string) (s : db) : list NoteVersion.t :=
  filter (λ v, NoteVersion.note_id v = note_id) (note_versions s).


(** Newest first: no record is followed by a later one. *)
Definition newest_first {A : Type} (key : A → Z) (rows : list A) : Prop :=
  StronglySorted (λ a b, key b ≤ key a) rows.


(** One call of [update_note], with what it draws from its environment. *)
Record update_call : Type := mk_call {
  data : NoteUpdate.t;
  uuid4 : string;
  now : Z;
  utcnow : Z
}.



(** The domain filter of a query. *)
Definition in_domain (domain : option Domain) (n : Note.t) : Prop :=
  match domain with
  | Some d => Note.domain n = d
  | None => True
  end.

Definition of_type (note_type : option NoteType) (n : Note.t) : Prop :=
  match note_type with
  | Some t => Note.note_type n = t
  | None => True
  end.

#[global] Instance in_domain_dec domain n : Decision (in_domain domain n).
Proof. destruct domain; simpl; apply _. Defined.

#[global] Instance of_type_dec note_type n : Decision (of_type note_type n).
Proof. destruct note_type; simpl; apply _. Defined.

(** A link whose endpoints are the given notes, in this order. *)
Definition joins (from_id to_id : string) (l : Link.t) : Prop :=
  Link.from_id l = Some from_id ∧ Link.to_id l = Some to_id.

(** Sample data: a physics note [x], a security note [y], their creation
    versions and a link from [x] to [y]. *)
Definition note_x : Note.t := Note.mk "x" "X" "first" IDEA PHYSICS 1 None.
Definition note_y : Note.t := Note.mk "y" "Y" "second" QUESTION SECURITY 2 None.
Definition link_xy : Link.t := Link.mk "l1" (Some "x") (Some "y") SUPPORTS 3.

Definition sample : db :=
  mk_db [note_x; note_y]
        [NoteVersion.mk "v1" "x" "" "Initial creation" 1;
         NoteVersion.mk "v2" "y" "" "Initial creation" 2]
        [link_xy].

Definition edit (content reason : string) (uuid : string) (t : Z) : update_call :=
  mk_call (NoteUpdate.mk None (Some content) None None reason) uuid t t.

End StoreSpec.

(** * Consistency of a store *)

Module StoreInv.
Import Store StoreSpec.

(** The ordered pair of notes a link joins, when both ends are set. *)
Definition endpoints (l : Link.t) : option (string * string) :=
  match Link.from_id l, Link.to_id l with
  | Some f, Some t => Some (f, t)
  | _, _ => None
  end.

(** Primary keys are unique, every version belongs to a note of the store,
    every end of a link that is set is a note of the store, no link joins
    a note to itself, and no ordered pair of notes is joined twice. *)
Record consistent (s : db) : Prop := mk_consistent {
  note_ids_unique : NoDup (Note.id <$> notes s);
  version_ids_unique : NoDup (NoteVersion.id <$> note_versions s);
  link_ids_unique : NoDup (Link.id <$> links s);
  versions_owned : ∀ v, v ∈ note_versions s → present (NoteVersion.note_id v) s;
  links_attached :
    ∀ l x, l ∈ links s → Link.from_id l = Some x ∨ Link.to_id l = Some x → present x s;
  links_no_self : ∀ l f t, l ∈ links s → endpoints l = Some (f, t) → f ≠ t;
  links_no_repeat : NoDup (omap endpoints (links s))
}.

(** Every link of the store has both ends set. *)
Definition fully_linked (s : db) : Prop :=
  ∀ l, l ∈ links s → is_Some (endpoints l).

(** The note [create_note] builds. *)
Definition new_note (note : NoteCreate.t) (uuid : string) (t : Z) : Note.t :=
  Note.mk uuid (strip (NoteCreate.title note)) (strip (NoteCreate.content note))
    (NoteCreate.note_type note) (NoteCreate.domain note) t None.

Definition creation_version (uuid' uuid : string) (t' : Z) : NoteVersion.t :=
  NoteVersion.mk uuid' uuid "" "Initial creation" t'.

(** Number of notes of a type, of a domain. *)
Definition count_type (t : NoteType) (s : db) : nat :=
  length (filter (λ n, Note.note_type n = t) (notes s)).

Definition count_domain (d : Domain) (s : db) : nat :=
  length (filter (λ n, Note.domain n = d) (notes s)).

(** A request for a note. *)
Definition draft : NoteCreate.t := NoteCreate.mk " Z " " third " IDEA OTHER.

End StoreInv.

(** * Proofs: the graph builder *)

Module GraphFacts.
Import Graph GraphSpec.

Lemma target_loop_omap s ls acc :
  target_loop s ls acc = acc ++ omap (link_target s) ls.
Proof.
  revert acc. induction ls as [|t ls IH]; intros acc; simpl.
  - by rewrite app_nil_r.
  - destruct t; simpl; rewrite ?IH; try done.
    by rewrite <- app_assoc.
Qed.

Lemma node_loop_nodes_from notes seen acc :
  Forall is_note notes →
  node_loop notes seen acc = Ok (acc ++ nodes_from notes seen).
Proof.
  intros Hall. revert seen acc.
  induction Hall as [|x rest Hx _ IH]; intros seen acc; simpl.
  - by rewrite app_nil_r.
  - destruct x as [| | | | |d]; try done. simpl.
    destruct (usable_id (d !! "id")) as [s|]; [|apply IH].
    destruct (decide (s ∈ seen)); [apply IH|].
    simpl. rewrite IH. by rewrite <- app_assoc.
Qed.

Lemma edge_loop_declared notes acc :
  Forall is_note notes →
  edge_loop notes acc = Ok (acc ++ (notes ≫= declared_edges)).
Proof.
  intros Hall. revert acc.
  induction Hall as [|x rest Hx _ IH]; intros acc; simpl.
  - by rewrite app_nil_r.
  - destruct x as [| | | | |d]; try done. simpl.
    destruct (usable_id (d !! "id")) as [s|]; [|apply IH].
    destruct (d !! "links") as [[| | | |ls|]|]; simpl; rewrite ?IH; try done.
    by rewrite target_loop_omap, <- app_assoc.
Qed.

(** A run that returns has met note objects only. *)
Lemma node_loop_ok_notes notes seen acc ns :
  node_loop notes seen acc = Ok ns → Forall is_note notes.
Proof.
  revert seen acc. induction notes as [|x rest IH]; intros seen acc H; [constructor|].
  destruct x as [| | | | |d]; try discriminate H.
  constructor; [done|]. simpl in H.
  destruct (usable_id (d !! "id")) as [s|]; [|by eapply IH].
  destruct (decide (s ∈ seen)); by eapply IH.
Qed.

Lemma build_graph_notes notes :
  Forall is_note notes →
  _build_graph_from_notes notes
  = Ok (mk_graph (nodes_from notes ∅) (notes ≫= declared_edges)).
Proof.
  intros H. unfold _build_graph_from_notes.
  rewrite node_loop_nodes_from, edge_loop_declared by done. reflexivity.
Qed.

Lemma build_graph_ok_notes notes g :
  _build_graph_from_notes notes = Ok g → Forall is_note notes.
Proof.
  unfold _build_graph_from_notes. intros H.
  destruct (node_loop notes ∅ []) as [ns|e] eqn:E; [|discriminate H].
  by eapply node_loop_ok_notes.
Qed.

Lemma declared_id_note x s : declared_id x = Some s → ∃ d, x = JDict d.
Proof. destruct x; try discriminate. eauto. Qed.

(** The nodes are those of the first entries of their identifier. *)
Lemma nodes_from_first notes seen n :
  n ∈ nodes_from notes seen ↔
  ((node_id n ∉ seen) ∧
   ∃ i d, notes !! i = Some (JDict d) ∧ first_with_id notes i (node_id n)
          ∧ n = node_of d (node_id n)).
Proof.
  revert seen. induction notes as [|x rest IH]; intros seen.
  { simpl. rewrite elem_of_nil. split; [done|]. by intros (_ & i & d & H & _). }
  assert (Hskip : (declared_id x = None ∨ ∃ s, declared_id x = Some s ∧ s ∈ seen) →
    (n ∈ nodes_from rest seen ↔
     ((node_id n ∉ seen) ∧
      ∃ i d, (x :: rest) !! i = Some (JDict d) ∧ first_with_id (x :: rest) i (node_id n)
             ∧ n = node_of d (node_id n)))).
  { intros Hx. rewrite IH. split.
    - intros (Hn & i & d & Hi & [Hid Hfirst] & ->). split; [done|].
      exists (S i), d. split; [done|]. split; [|done]. split; [done|].
      intros [|j] y Hj Hy; simpl in Hy.
      + injection Hy as <-. destruct Hx as [->|(s & -> & Hs)]; [done|].
        intros [= ->]. done.
      + apply (Hfirst j y); [lia|done].
    - intros (Hn & i & d & Hi & [Hid Hfirst] & Heq). split; [done|].
      destruct i as [|i]; simpl in Hi.
      + injection Hi as ->. destruct Hid as (y & Hy & Hid). injection Hy as <-.
        destruct Hx as [Hx|(s & Hx & Hs)]; congruence.
      + exists i, d. split; [done|]. split; [|done]. split; [done|].
        intros j y Hj Hy. apply (Hfirst (S j) y); [lia|done]. }
  simpl. destruct (declared_id x) as [s|] eqn:Hx.
  2:{ apply Hskip; by left. }
  destruct (declared_id_note _ _ Hx) as [d0 ->].
  destruct (decide (s ∈ seen)) as [Hs|Hs].
  { apply Hskip. right. eauto. }
  rewrite elem_of_cons, IH. split.
  - intros [->|(Hn & i & d & Hi & [Hid Hfirst] & Heq)].
    + simpl. split; [done|]. exists 0%nat, d0. split; [done|]. split; [|done].
      split; [by exists (JDict d0)|]. intros j y Hj. lia.
    + rewrite not_elem_of_union, not_elem_of_singleton in Hn. destruct Hn as [Hne Hn].
      split; [done|]. exists (S i), d. split; [done|]. split; [|done].
      split; [done|]. intros [|j] y Hj Hy; simpl in Hy.
      * injection Hy as <-. rewrite Hx. intros [= ->]. done.
      * apply (Hfirst j y); [lia|done].
  - intros (Hn & i & d & Hi & [Hid Hfirst] & Heq).
    destruct i as [|i]; simpl in Hi.
    + injection Hi as ->. destruct Hid as (y & Hy & Hid). injection Hy as <-.
      left. rewrite Heq. simpl in *. congruence.
    + right. split.
      * rewrite not_elem_of_union, not_elem_of_singleton. split; [|done].
        intros Heq'. apply (Hfirst 0%nat (JDict d0)); [lia|done|congruence].
      * exists i, d. split; [done|]. split; [|done]. split; [done|].
        intros j y Hj Hy. apply (Hfirst (S j) y); [lia|done].
Qed.

Lemma nodes_from_NoDup notes seen : NoDup (node_id <$> nodes_from notes seen).
Proof.
  revert seen. induction notes as [|x rest IH]; intros seen; simpl; [constructor|].
  destruct (declared_id x) as [s|]; [|apply IH].
  destruct (decide (s ∈ seen)) as [Hs|Hs]; [apply IH|].
  rewrite fmap_cons. apply NoDup_cons. split; [|apply IH].
  rewrite list_elem_of_fmap. intros (n & Hn & Hin).
  apply nodes_from_first in Hin as [Hin _]. simpl in Hn.
  apply Hin, elem_of_union_l, elem_of_singleton. done.
Qed.

(** Every identifier an entry declares is seen already or gets a node. *)
Lemma declared_id_node notes seen x s :
  x ∈ notes → declared_id x = Some s →
  s ∈ seen ∨ s ∈ node_id <$> nodes_from notes seen.
Proof.
  revert seen. induction notes as [|y rest IH]; intros seen Hin Hx.
  { by apply elem_of_nil in Hin. }
  assert (Hrest : ∀ seen', x ∈ rest ∨ (x = y ∧ s ∈ seen') →
            s ∈ seen' ∨ s ∈ node_id <$> nodes_from rest seen').
  { intros seen' [H|[_ H]]; [by apply IH|by left]. }
  apply elem_of_cons in Hin. simpl.
  destruct (declared_id y) as [s'|] eqn:Hy.
  2:{ apply Hrest; destruct Hin as [->|?]; auto; congruence. }
  destruct (declared_id_note _ _ Hy) as [d ->].
  destruct (decide (s' ∈ seen)) as [Hs|Hs].
  { apply Hrest. destruct Hin as [->|?]; auto. right. split; [done|]. congruence. }
  rewrite fmap_cons, elem_of_cons. simpl.
  destruct Hin as [->|Hin].
  - right. left. congruence.
  - destruct (IH ({[s']} ∪ seen) Hin Hx) as [H|H]; [|tauto].
    apply elem_of_union in H as [H|H]; [|tauto].
    apply elem_of_singleton in H. tauto.
Qed.

(** C2: on a collection of note objects the permissive builder returns a
    graph whose nodes have pairwise distinct identifiers and are exactly
    the nodes of the first entry of each declared identifier (title
    defaulting to the identifier, domain to ["default"]), and whose edges
    are, entry by entry, one edge per string of the entry's links list,
    whether or not the target is a node; on the example collection it
    returns the single node ["a"] titled ["A"] and the single edge from
    ["a"] to ["b"]. *)
Theorem permissive_graph (notes : list json) :
  Forall is_note notes →
  (∃ g, _build_graph_from_notes notes = Ok g
        ∧ NoDup (node_id <$> nodes g)
        ∧ (∀ n, n ∈ nodes g ↔
                ∃ i d, notes !! i = Some (JDict d) ∧ first_with_id notes i (node_id n)
                       ∧ n = node_of d (node_id n))
        ∧ edges g = notes ≫= declared_edges)
  ∧ _build_graph_from_notes example_notes = Ok example_graph.
Proof.
  intros Hall. split; [|by vm_compute].
  eexists. split; [by apply build_graph_notes|]. simpl.
  split; [apply nodes_from_NoDup|]. split; [|done].
  intros n. rewrite nodes_from_first. split; [tauto|]. intros H.
  split; [apply not_elem_of_empty|done].
Qed.

Lemma permissive_graph_witness :
  Forall is_note example_notes
  ∧ ∃ g, _build_graph_from_notes example_notes = Ok g
         ∧ NoDup (node_id <$> nodes g)
         ∧ edges g = example_notes ≫= declared_edges.
Proof.
  assert (H : Forall is_note example_notes) by (repeat constructor).
  split; [exact H|].
  destruct (permissive_graph example_notes H) as [(g & Hg & Hnd & _ & He) _].
  exists g. auto.
Defined.

(** C9, on the code: an entry that is not a note object makes the builder
    raise instead of skipping the entry. *)
Theorem non_object_entry_raises :
  _build_graph_from_notes [Graph.JNumber 5]
  = Raise (AttributeError "'int' object has no attribute 'get'")
  ∧ ∀ before x after,
      Forall is_note before → ¬ is_note x →
      ¬ is_ok (_build_graph_from_notes (before ++ x :: after)).
Proof.
  split; [reflexivity|].
  intros before x after Hb Hx Hok.
  destruct (_build_graph_from_notes (before ++ x :: after)) as [g|] eqn:E; [|done].
  apply build_graph_ok_notes in E.
  apply Forall_app in E as [_ E]. by inversion E.
Qed.

Lemma non_object_entry_raises_witness :
  ¬ is_ok (_build_graph_from_notes ([JDict ∅] ++ JNull :: [])).
Proof.
  apply (proj2 non_object_entry_raises [JDict ∅] JNull []).
  - repeat constructor.
  - simpl. tauto.
Defined.

(** C10: when the builder returns, the source of every edge is the
    identifier of a node of the result, and every entry that declares an
    identifier contributes an edge for each string of its links list,
    wherever the entry stands among the entries of that identifier. *)
Theorem edges_of_every_occurrence (notes : list json) (g : graph) :
  _build_graph_from_notes notes = Ok g →
  (∀ e, e ∈ edges g → ∃ n, n ∈ nodes g ∧ node_id n = source e)
  ∧ (∀ i d s ls t,
        notes !! i = Some (JDict d) → usable_id (d !! "id") = Some s →
        d !! "links" = Some (JList ls) → JString t ∈ ls →
        mk_edge s t ∈ edges g).
Proof.
  intros Hg. pose proof (build_graph_ok_notes _ _ Hg) as Hall.
  rewrite build_graph_notes in Hg by done. injection Hg as <-. simpl. split.
  - intros e He. apply list_elem_of_bind in He as (x & He & Hx).
    assert (declared_id x = Some (source e)) as Hid.
    { destruct x as [| | | | |d]; simpl in He; try by apply elem_of_nil in He.
      simpl. destruct (usable_id (d !! "id")) as [s|]; [|by apply elem_of_nil in He].
      destruct (d !! "links") as [[| | | |ls|]|]; try by apply elem_of_nil in He.
      apply list_elem_of_omap in He as (t & _ & Ht).
      destruct t; simpl in Ht; try discriminate. by injection Ht as <-. }
    destruct (declared_id_node notes ∅ x (source e) Hx Hid) as [H|H];
      [by apply elem_of_empty in H|].
    apply list_elem_of_fmap in H as (n & Hn & Hin). eauto.
  - intros i d s ls t Hi Hs Hl Ht.
    apply list_elem_of_bind. exists (JDict d). split.
    + simpl. rewrite Hs, Hl. apply list_elem_of_omap. by exists (JString t).
    + by eapply list_elem_of_lookup_2.
Qed.

Lemma edges_of_every_occurrence_witness :
  (∀ e, e ∈ edges example_graph → ∃ n, n ∈ nodes example_graph ∧ node_id n = source e)
  ∧ mk_edge "a" "b" ∈ edges example_graph.
Proof.
  assert (H : _build_graph_from_notes example_notes = Ok example_graph) by (by vm_compute).
  destruct (edges_of_every_occurrence example_notes example_graph H) as [H1 H2].
  split; [exact H1|].
  apply (H2 0%nat {[ "id" := JString "a"; "title" := JString "A";
                     "links" := JList [JString "b"] ]} "a" [JString "b"] "b").
  - reflexivity.
  - by vm_compute.
  - by vm_compute.
  - by constructor.
Defined.

End GraphFacts.

(** * Proofs: the store *)

Module StoreFacts.
Import Store StoreSpec.

(** ** Strings *)

Lemma lstrip_blank s : blank s = true → lstrip s = "".
Proof.
  induction s as [|c r IH]; simpl; [done|].
  intros [Hc Hr]%andb_true_iff. rewrite Hc. auto.
Qed.

Lemma strip_blank s : blank s = true → strip s = "".
Proof. intros H. unfold strip. by rewrite lstrip_blank. Qed.

(** ** Queries *)

Lemma first_filter_Some {A} (P : A → Prop) `{!∀ x, Decision (P x)} rows a :
  first (filter P rows) = Some a → P a ∧ a ∈ rows.
Proof.
  intros Hf. apply (list_elem_of_filter P). unfold first in Hf.
  destruct (filter P rows); [discriminate|]. injection Hf as ->. by left.
Qed.

Lemma first_filter_None {A} (P : A → Prop) `{!∀ x, Decision (P x)} rows :
  first (filter P rows) = None ↔ ∀ a, a ∈ rows → ¬ P a.
Proof.
  unfold first. split.
  - intros Hf a Ha HP. assert (a ∈ filter P rows) as Hin by (by apply list_elem_of_filter).
    destruct (filter P rows); [by apply elem_of_nil in Hin|discriminate].
  - intros Hf. destruct (filter P rows) as [|a l] eqn:E; [done|].
    assert (a ∈ filter P rows) as Hin by (rewrite E; by left).
    apply list_elem_of_filter in Hin as [HP Hin]. by destruct (Hf a Hin).
Qed.

Lemma present_lookup note_id s :
  present note_id s ↔ is_Some (first (filter (λ n, Note.id n = note_id) (notes s))).
Proof.
  unfold present. rewrite list_elem_of_fmap. split.
  - intros (n & -> & Hn).
    destruct (first (filter (λ m, Note.id m = Note.id n) (notes s))) eqn:E; [eauto|].
    rewrite first_filter_None in E. by destruct (E n Hn).
  - intros [n Hn]. apply first_filter_Some in Hn as [<- Hn]. eauto.
Qed.

Lemma absent_lookup note_id s :
  ¬ present note_id s → first (filter (λ n, Note.id n = note_id) (notes s)) = None.
Proof.
  rewrite present_lookup. intros H.
  destruct (first _); [|done]. destruct H. eauto.
Qed.

(** ** Ordering *)

Section order_by.
Context {A : Type} (key : A → Z).

Lemma insert_desc_perm a rows : insert_desc key a rows ≡ₚ a :: rows.
Proof.
  induction rows as [|b rest IH]; simpl; [done|].
  destruct (decide (key a < key b)); [|done].
  rewrite IH. apply Permutation_swap.
Qed.

Lemma order_by_desc_perm rows : order_by_desc key rows ≡ₚ rows.
Proof.
  induction rows as [|a rest IH]; simpl; [done|].
  rewrite insert_desc_perm. by rewrite IH.
Qed.

Lemma insert_desc_sorted a rows :
  newest_first key rows → newest_first key (insert_desc key a rows).
Proof.
  unfold newest_first. induction 1 as [|b rest Hs IH Hb]; simpl.
  - repeat constructor.
  - destruct (decide (key a < key b)) as [Hlt|Hge].
    + constructor; [done|].
      rewrite insert_desc_perm. constructor; [lia|done].
    + constructor; [by constructor|].
      constructor; [lia|]. eapply Forall_impl; [exact Hb|]. simpl. intros; lia.
Qed.

Lemma order_by_desc_sorted rows : newest_first key (order_by_desc key rows).
Proof.
  induction rows as [|a rest IH]; simpl; [constructor|].
  by apply insert_desc_sorted.
Qed.


End order_by.

(** ** [update_note] *)

(** C6: on a note of the store, an update whose change reason is empty or
    all white space fails with a validation error and leaves the store as
    it was, so the note with all its fields and its version history read
    back unchanged; on an identifier that is not in the store the update
    fails with not-found.  An empty change reason is refused by the
    request schema already, with a validation error as well. *)
Theorem update_requires_reason (note_id : string) (update_data : NoteUpdate.t)
    (uuid : string) (t t' : Z) (s : db) :
  let r := update_note note_id update_data uuid t t' s in
  (present note_id s → blank (NoteUpdate.change_reason update_data) = true →
     fails_with r.1 ValidationError
     ∧ r.2 = s
     ∧ get_note note_id r.2 = get_note note_id s
     ∧ versions_of note_id r.2 = versions_of note_id s)
  ∧ (¬ present note_id s → fails_with r.1 NotFound ∧ r.2 = s)
  ∧ (NoteUpdate.change_reason update_data = "" →
     fails_with (validate_NoteUpdate update_data) ValidationError).
Proof.
  simpl. unfold update_note. split; [|split].
  - intros [note Hnote]%present_lookup Hblank. rewrite Hnote.
    rewrite decide_True; [by vm_compute|].
    right. by apply strip_blank.
  - intros Habs. rewrite (absent_lookup _ _ Habs). by vm_compute.
  - intros Hempty. unfold validate_NoteUpdate. rewrite Hempty.
    destruct (match NoteUpdate.title update_data with Some _ => _ | None => _ end); [|done].
    rewrite decide_False; [done|]. simpl. lia.
Qed.

Lemma update_requires_reason_witness :
  fails_with (update_note "x" (NoteUpdate.mk None (Some "lost") None None "  ") "v3" 5 5 sample).1
    ValidationError
  ∧ get_note "x" (update_note "x" (NoteUpdate.mk None (Some "lost") None None "  ")
                    "v3" 5 5 sample).2 = get_note "x" sample
  ∧ fails_with (update_note "z" (NoteUpdate.mk None (Some "lost") None None "why") "v3" 5 5 sample).1
      NotFound.
Proof.
  assert (Hx : present "x" sample) by (by vm_compute; left).
  assert (Hz : ¬ present "z" sample).
  { intros H. vm_compute in H.
    by repeat (apply elem_of_cons in H as [H|H]; [done|]); apply elem_of_nil in H. }
  destruct (update_requires_reason "x" (NoteUpdate.mk None (Some "lost") None None "  ")
              "v3" 5 5 sample) as [H1 _].
  destruct (H1 Hx eq_refl) as (Ha & _ & Hb & _).
  destruct (update_requires_reason "z" (NoteUpdate.mk None (Some "lost") None None "why")
              "v3" 5 5 sample) as (_ & H2 & _).
  destruct (H2 Hz) as [Hc _].
  auto.
Defined.








(** ** [get_note_versions] *)

(** C7, on the code: for a note of the store the listing returns its
    version records newest first; for an identifier that is not in the
    store the handler reads a status attribute that does not exist, so the
    request ends in an [AttributeError], answered as an internal error,
    not in not-found. *)
Theorem list_versions_absent (note_id : string) (s : db) :
  (present note_id s →
     ∃ vs, get_note_versions note_id s = Ok vs
           ∧ vs ≡ₚ versions_of note_id s
           ∧ newest_first NoteVersion.changed_at vs)
  ∧ (¬ present note_id s →
     get_note_versions note_id s
     = Raise (AttributeError "module 'starlette.status' has no attribute 'HTP_404_NOT_FOUND'")
     ∧ fails_with (get_note_versions note_id s) InternalError
     ∧ ¬ fails_with (get_note_versions note_id s) NotFound).
Proof.
  unfold get_note_versions. split.
  - intros [note Hnote]%present_lookup. rewrite Hnote. eexists. split; [done|].
    split; [apply order_by_desc_perm|apply order_by_desc_sorted].
  - intros Habs. rewrite (absent_lookup _ _ Habs). by vm_compute.
Qed.

Lemma absent_sample : ¬ present "z" sample.
Proof.
  intros H. vm_compute in H.
  by repeat (apply elem_of_cons in H as [H|H]; [done|]); apply elem_of_nil in H.
Qed.

Lemma list_versions_absent_witness :
  (∃ vs, get_note_versions "x" sample = Ok vs)
  ∧ fails_with (get_note_versions "z" sample) InternalError.
Proof.
  destruct (list_versions_absent "x" sample) as [H1 _].
  destruct (list_versions_absent "z" sample) as [_ H2].
  split.
  - destruct H1 as (vs & Hvs & _); [by vm_compute; left|]. eauto.
  - by destruct (H2 absent_sample) as (_ & H & _).
Defined.

(** ** [delete_note] *)

(** C4, on the code: deleting a note of the store removes the note and
    its version records, and the note is not found afterwards; the link
    records that had it as source or target are all still in the table,
    with that endpoint set to null.  Deleting an identifier that is not in
    the store fails with not-found. *)
Theorem delete_note_keeps_links (note_id : string) (t : Z) (s : db) :
  let r := delete_note note_id t s in
  (present note_id s →
     is_ok r.1
     ∧ ¬ present note_id r.2
     ∧ versions_of note_id r.2 = []
     ∧ fails_with (get_note note_id r.2) NotFound
     ∧ Link.id <$> links r.2 = Link.id <$> links s
     ∧ ∀ l, l ∈ links r.2 → Link.from_id l ≠ Some note_id ∧ Link.to_id l ≠ Some note_id)
  ∧ (¬ present note_id s → fails_with r.1 NotFound ∧ r.2 = s)
  ∧ links (delete_note "x" 9 sample).2 = [Link.mk "l1" None (Some "y") SUPPORTS 3].
Proof.
  simpl. unfold delete_note. split; [|split; [|reflexivity]].
  - intros [note Hnote]%present_lookup. rewrite Hnote. simpl.
    apply first_filter_Some in Hnote as [<- _].
    assert (Hgone : ¬ present (Note.id note) (session_delete_note note s)).
    { unfold present, session_delete_note. simpl.
      intros (n & Hn & Hin)%list_elem_of_fmap.
      apply list_elem_of_filter in Hin as [Hne _]. by destruct Hne. }
    split; [done|]. split; [done|]. split; [|split; [|split]].
    + unfold versions_of, session_delete_note. simpl.
      apply elem_of_nil_inv. intros v Hv.
      apply list_elem_of_filter in Hv as [Hv Hin].
      apply list_elem_of_filter in Hin as [Hne _]. by destruct Hne.
    + unfold get_note. rewrite (absent_lookup _ _ Hgone). by vm_compute.
    + unfold session_delete_note. simpl. rewrite <- list_fmap_compose.
      by apply list_fmap_ext.
    + unfold session_delete_note. simpl.
      intros l (l0 & -> & _)%list_elem_of_fmap. unfold detach. simpl.
      split; by destruct (decide _).
  - intros Habs. rewrite (absent_lookup _ _ Habs). by vm_compute.
Qed.

Lemma delete_note_keeps_links_witness :
  Link.id <$> links (delete_note "x" 9 sample).2 = Link.id <$> links sample
  ∧ fails_with (delete_note "z" 9 sample).1 NotFound.
Proof.
  destruct (delete_note_keeps_links "x" 9 sample) as (H1 & _ & _).
  destruct (delete_note_keeps_links "z" 9 sample) as (_ & H2 & _).
  split.
  - destruct H1 as (_ & _ & _ & _ & H & _); [by vm_compute; left|]. exact H.
  - by destruct (H2 absent_sample).
Defined.

(** ** [create_link] *)

Lemma no_link_lookup f t (ls : list Link.t) :
  first (filter (λ l, Link.from_id l = Some f ∧ Link.to_id l = Some t) ls) = None
  ↔ ∀ l, l ∈ ls → ¬ joins f t l.
Proof. apply (first_filter_None (λ l, Link.from_id l = Some f ∧ Link.to_id l = Some t)). Qed.

(** C5 as stated fails: a second link between the same two notes of the
    store, in the same order, is refused with status 400, the status of a
    validation error, not with a conflict error. *)
Lemma duplicate_link_is_bad_request :
  present "x" sample ∧ present "y" sample
  ∧ (∃ l, l ∈ links sample ∧ joins "x" "y" l)
  ∧ (create_link (LinkCreate.mk "x" "y" EXTENDS) "l2" 9 sample).1
    = Raise (HTTPException 400 "Link already exists between these notes")
  ∧ ¬ fails_with (create_link (LinkCreate.mk "x" "y" EXTENDS) "l2" 9 sample).1 ConflictError.
Proof.
  split; [by vm_compute; left|]. split; [by vm_compute; right; left|].
  split; [exists link_xy; split; [by left|done]|].
  split; [reflexivity|]. by vm_compute.
Qed.

(** C5, amended: [create_link] fails with not-found when either endpoint
    is not in the store; with both endpoints in the store it fails with a
    validation error (status 400) when they are the same note, and with
    the same status 400, message "Link already exists between these
    notes", when a link with the same ordered pair exists; otherwise,
    given a new identifier, it returns the new link and adds it to the
    store. *)
Theorem create_link_outcomes (link : LinkCreate.t) (uuid : string) (t : Z) (s : db) :
  let r := create_link link uuid t s in
  let from_id := LinkCreate.from_id link in
  let to_id := LinkCreate.to_id link in
  (¬ present from_id s ∨ ¬ present to_id s → fails_with r.1 NotFound ∧ r.2 = s)
  ∧ (present from_id s → present to_id s → from_id = to_id →
     fails_with r.1 ValidationError ∧ r.2 = s)
  ∧ (present from_id s → present to_id s → from_id ≠ to_id →
     (∃ l, l ∈ links s ∧ joins from_id to_id l) →
     r.1 = Raise (HTTPException 400 "Link already exists between these notes")
     ∧ fails_with r.1 ValidationError ∧ r.2 = s)
  ∧ (present from_id s → present to_id s → from_id ≠ to_id →
     (∀ l, l ∈ links s → ¬ joins from_id to_id l) →
     uuid ∉ Link.id <$> links s →
     let new := Link.mk uuid (Some from_id) (Some to_id) (LinkCreate.relation link) t in
     r.1 = Ok new
     ∧ r.2 = mk_db (notes s) (note_versions s) (links s ++ [new])).
Proof.
  simpl. unfold create_link. split; [|split; [|split]].
  - intros [Habs|Habs].
    + rewrite (absent_lookup _ _ Habs). by vm_compute.
    + rewrite (absent_lookup _ _ Habs). destruct (first _); by vm_compute.
  - intros [a ->]%present_lookup [b ->]%present_lookup Heq.
    rewrite decide_True by done. by vm_compute.
  - intros [a ->]%present_lookup [b ->]%present_lookup Hne (l & Hl & Hj).
    rewrite decide_False by done.
    destruct (first (filter _ (links s))) as [l'|] eqn:E; [by vm_compute|].
    rewrite no_link_lookup in E. by destruct (E l Hl).
  - intros [a ->]%present_lookup [b ->]%present_lookup Hne Hnone Hnew.
    rewrite decide_False by done.
    rewrite (proj2 (no_link_lookup _ _ _) Hnone).
    unfold insert_link. simpl. by rewrite decide_False.
Qed.

Lemma create_link_outcomes_witness :
  fails_with (create_link (LinkCreate.mk "x" "z" EXTENDS) "l2" 9 sample).1 NotFound
  ∧ fails_with (create_link (LinkCreate.mk "x" "x" EXTENDS) "l2" 9 sample).1 ValidationError
  ∧ fails_with (create_link (LinkCreate.mk "x" "y" EXTENDS) "l2" 9 sample).1 ValidationError
  ∧ (create_link (LinkCreate.mk "y" "x" EXTENDS) "l2" 9 sample).1
    = Ok (Link.mk "l2" (Some "y") (Some "x") EXTENDS 9).
Proof.
  assert (Hx : present "x" sample) by (by vm_compute; left).
  assert (Hy : present "y" sample) by (by vm_compute; right; left).
  destruct (create_link_outcomes (LinkCreate.mk "x" "z" EXTENDS) "l2" 9 sample) as (H1 & _).
  destruct (create_link_outcomes (LinkCreate.mk "x" "x" EXTENDS) "l2" 9 sample) as (_ & H2 & _).
  destruct (create_link_outcomes (LinkCreate.mk "x" "y" EXTENDS) "l2" 9 sample) as (_ & _ & H3 & _).
  destruct (create_link_outcomes (LinkCreate.mk "y" "x" EXTENDS) "l2" 9 sample) as (_ & _ & _ & H4).
  simpl in *. split; [|split; [|split]].
  - apply H1. right. exact absent_sample.
  - by apply H2.
  - apply H3; [done|done|done|]. exists link_xy. split; [by left|done].
  - apply H4; [done|done|done| |].
    + intros l Hl [Hf _]. apply list_elem_of_singleton in Hl as ->. discriminate Hf.
    + intros H. apply list_elem_of_singleton in H. discriminate H.
Defined.

(** ** [get_all_notes] *)

Lemma filter_all {A} (P : A → Prop) `{!∀ x, Decision (P x)} (rows : list A) :
  (∀ a, P a) → filter P rows = rows.
Proof.
  intros HP. induction rows as [|a rows IH]; [done|].
  by rewrite filter_cons_True, IH.
Qed.

(** The rows the two optional filters keep. *)
Lemma query_filters domain note_type (rows : list Note.t) :
  match note_type with
  | Some t => filter (λ n, Note.note_type n = t)
                (match domain with
                 | Some d => filter (λ n, Note.domain n = d) rows
                 | None => rows
                 end)
  | None => match domain with
            | Some d => filter (λ n, Note.domain n = d) rows
            | None => rows
            end
  end = filter (λ n, in_domain domain n ∧ of_type note_type n) rows.
Proof.
  destruct domain as [d|], note_type as [t|]; simpl.
  - rewrite list_filter_filter. apply list_filter_iff. tauto.
  - apply list_filter_iff. tauto.
  - apply list_filter_iff. tauto.
  - symmetry. apply filter_all. tauto.
Qed.

(** C8 as stated fails: a negative [skip] is not refused with a
    validation error; the engine reads it as zero or rejects the
    statement, which is answered as an internal error. *)
Lemma negative_skip_not_validated :
  get_all_notes Unbounded (-1) 1 None None sample = Ok [note_y]
  ∧ ¬ fails_with (get_all_notes Unbounded (-1) 1 None None sample) ValidationError
  ∧ fails_with (get_all_notes Rejected (-1) 1 None None sample) InternalError
  ∧ ¬ fails_with (get_all_notes Rejected (-1) 1 None None sample) ValidationError.
Proof. split; [reflexivity|]. by vm_compute. Qed.

(** C8, amended: for [skip] and [limit] that are not negative and fit a
    signed 64-bit integer, [get_all_notes] returns the notes that pass the
    filters, ordered by [created_at] descending, without the first [skip]
    and cut to [limit]; no [skip] or [limit] makes it fail with a
    validation error, and one that does not fit 64 bits makes it fail
    with an internal error. *)
Theorem list_notes_pages (engine : negative_paging) (skip limit : Z)
    (domain : option Domain) (note_type : option NoteType) (s : db) :
  (0 ≤ skip < 2 ^ 63 → 0 ≤ limit < 2 ^ 63 →
   ∃ ordered,
     ordered ≡ₚ filter (λ n, in_domain domain n ∧ of_type note_type n) (notes s)
     ∧ newest_first Note.created_at ordered
     ∧ get_all_notes engine skip limit domain note_type s
       = Ok (take (Z.to_nat limit) (drop (Z.to_nat skip) ordered)))
  ∧ ¬ fails_with (get_all_notes engine skip limit domain note_type s) ValidationError
  ∧ (¬ (int64 skip ∧ int64 limit) →
     fails_with (get_all_notes engine skip limit domain note_type s) InternalError).
Proof.
  unfold get_all_notes. rewrite query_filters. split; [|split].
  - intros Hs Hl. eexists. split; [apply order_by_desc_perm|].
    split; [apply order_by_desc_sorted|].
    unfold offset_limit, int64. rewrite decide_True by lia. by rewrite decide_True by lia.
  - unfold offset_limit. destruct (decide (int64 skip ∧ int64 limit)).
    + destruct (decide _); [simpl; tauto|].
      destruct engine; [simpl; tauto|]. by vm_compute.
    + destruct engine; by vm_compute.
  - intros Hout. unfold offset_limit. rewrite decide_False by done.
    destruct engine; by vm_compute.
Qed.

Lemma list_notes_pages_witness :
  (0 ≤ 1 < 2 ^ 63 ∧ ∃ ordered,
     newest_first Note.created_at ordered
     ∧ get_all_notes Unbounded 1 1 None None sample = Ok (take 1 (drop 1 ordered)))
  ∧ ¬ fails_with (get_all_notes Rejected (-1) 1 None None sample) ValidationError
  ∧ fails_with (get_all_notes Unbounded 0 (2 ^ 63) None None sample) InternalError.
Proof.
  destruct (list_notes_pages Unbounded 1 1 None None sample) as [H1 _].
  destruct (list_notes_pages Rejected (-1) 1 None None sample) as (_ & H2 & _).
  destruct (list_notes_pages Unbounded 0 (2 ^ 63) None None sample) as (_ & _ & H3).
  split; [|split; [exact H2|]].
  - split; [lia|].
    destruct H1 as (ordered & _ & Hsorted & Hpage); [lia|lia|]. eauto.
  - apply H3. unfold int64. lia.
Defined.

(** ** [get_graph_data] *)

Lemma graph_edge_ok link e :
  graph_edge link = Ok e ↔
  Link.from_id link = Some (GraphEdge.source e)
  ∧ Link.to_id link = Some (GraphEdge.target e)
  ∧ GraphEdge.id e = Link.id link
  ∧ GraphEdge.relation e = Link.relation link.
Proof.
  unfold graph_edge. destruct link as [i f t r c], e as [i' f' t' r']. simpl. split.
  - destruct f, t; intros [=]; by subst.
  - by intros (-> & -> & -> & ->).
Qed.

(** Links with both endpoints set all become edges. *)
Lemma graph_edges_ok (ls : list Link.t) :
  Forall (λ l, is_Some (Link.from_id l) ∧ is_Some (Link.to_id l)) ls →
  ∃ es, graph_edges ls = Ok es
        ∧ ∀ e, e ∈ es ↔ ∃ l, l ∈ ls ∧ graph_edge l = Ok e.
Proof.
  induction 1 as [|l ls [[f Hf] [t Ht]] _ (es & Hes & IH)]; simpl.
  - exists []. split; [done|]. intros e. rewrite elem_of_nil.
    split; [done|]. intros (l & Hl & _). by apply elem_of_nil in Hl.
  - assert (graph_edge l = Ok (GraphEdge.mk (Link.id l) f t (Link.relation l))) as He.
    { unfold graph_edge. by rewrite Hf, Ht. }
    rewrite He, Hes. simpl. eexists. split; [done|].
    intros e. rewrite elem_of_cons, IH. split.
    + intros [->|(l' & Hl' & He')].
      * exists l. split; [by left|done].
      * exists l'. split; [by right|done].
    + intros (l' & [->|Hl']%elem_of_cons & He').
      * left. congruence.
      * right. eauto.
Qed.

Lemma in__Some x values : in_ x values → ∃ v, x = Some v ∧ v ∈ values.
Proof. destruct x; simpl; [eauto|done]. Qed.

(** C3: the strict graph endpoint returns the notes of the filter as
    nodes and, as edges, exactly the link records whose source and target
    are both among those notes; a link from a note of the filter to a note
    outside it gives no edge. *)
Theorem strict_graph_edges (domain : option Domain) (s : db) :
  ∃ g, get_graph_data domain s = Ok g
       ∧ GraphNode.id <$> GraphResponse.nodes g
         = Note.id <$> filter (in_domain domain) (notes s)
       ∧ (∀ e, e ∈ GraphResponse.edges g ↔
               ∃ l, l ∈ links s
                    ∧ joins (GraphEdge.source e) (GraphEdge.target e) l
                    ∧ GraphEdge.id e = Link.id l
                    ∧ GraphEdge.relation e = Link.relation l
                    ∧ GraphEdge.source e ∈ GraphNode.id <$> GraphResponse.nodes g
                    ∧ GraphEdge.target e ∈ GraphNode.id <$> GraphResponse.nodes g)
       ∧ (∀ l x y e,
             l ∈ links s → joins x y l →
             x ∈ GraphNode.id <$> GraphResponse.nodes g →
             y ∉ GraphNode.id <$> GraphResponse.nodes g →
             e ∈ GraphResponse.edges g →
             GraphEdge.target e ≠ y).
Proof.
  unfold get_graph_data.
  assert (match domain with
          | Some d => filter (λ n, Note.domain n = d) (notes s)
          | None => notes s
          end = filter (in_domain domain) (notes s)) as ->.
  { destruct domain; simpl; [done|]. symmetry. by apply filter_all. }
  set (scope := filter (in_domain domain) (notes s)).
  set (kept := filter (λ l, in_ (Link.from_id l) (Note.id <$> scope)
                            ∧ in_ (Link.to_id l) (Note.id <$> scope)) (links s)).
  destruct (graph_edges_ok kept) as (es & Hes & Hin).
  { apply Forall_forall. intros l [[Hf Ht] _]%list_elem_of_filter.
    apply in__Some in Hf as (f & -> & _). apply in__Some in Ht as (t & -> & _). eauto. }
  rewrite Hes. simpl. eexists. split; [done|]. simpl.
  assert (Hids : GraphNode.id <$>
                   ((λ note, GraphNode.mk (Note.id note) (Note.title note)
                               (Note.note_type note) (Note.domain note)) <$> scope)
                 = Note.id <$> scope).
  { rewrite <- list_fmap_compose. by apply list_fmap_ext. }
  rewrite Hids.
  assert (Hedges : ∀ e, e ∈ es ↔
            ∃ l, l ∈ links s ∧ joins (GraphEdge.source e) (GraphEdge.target e) l
                 ∧ GraphEdge.id e = Link.id l ∧ GraphEdge.relation e = Link.relation l
                 ∧ GraphEdge.source e ∈ Note.id <$> scope
                 ∧ GraphEdge.target e ∈ Note.id <$> scope).
  { intros e. rewrite Hin. split.
    - intros (l & [[Hf Ht] Hl]%list_elem_of_filter & He).
      apply graph_edge_ok in He as (Hf' & Ht' & Hi & Hr).
      rewrite Hf' in Hf. rewrite Ht' in Ht. exists l. by repeat split.
    - intros (l & Hl & [Hf Ht] & Hi & Hr & Hsrc & Htgt).
      exists l. split; [|by apply graph_edge_ok].
      apply list_elem_of_filter. split; [|done]. by rewrite Hf, Ht. }
  split; [done|]. split; [done|].
  intros l x y e _ _ _ Hy He <-.
  apply Hedges in He as (_ & _ & _ & _ & _ & _ & Htgt). done.
Qed.

(** On the sample store filtered to physics, the link from the physics
    note to the security note gives no edge. *)
Lemma strict_graph_edges_witness :
  ∃ g, get_graph_data (Some PHYSICS) sample = Ok g
       ∧ ∀ e, e ∈ GraphResponse.edges g → GraphEdge.target e ≠ "y".
Proof.
  destruct (strict_graph_edges (Some PHYSICS) sample) as (g & Hg & Hn & _ & Hout).
  exists g. split; [exact Hg|]. intros e He.
  apply (Hout link_xy "x" "y" e); [by left|done| | |exact He].
  - rewrite Hn. by vm_compute; left.
  - rewrite Hn. vm_compute. intros H. apply list_elem_of_singleton in H. discriminate H.
Defined.

End StoreFacts.

(** * Further properties of the store *)

Module StoreLaws.
Import Store StoreSpec StoreInv StoreFacts.

(** ** Consistency is kept *)

Lemma sample_consistent : consistent sample.
Proof.
  split.
  - vm_compute. repeat (constructor; [by rewrite ?elem_of_cons, elem_of_nil; intuition discriminate|]).
    constructor.
  - vm_compute. repeat (constructor; [by rewrite ?elem_of_cons, elem_of_nil; intuition discriminate|]).
    constructor.
  - vm_compute. repeat (constructor; [by rewrite ?elem_of_cons, elem_of_nil; intuition discriminate|]).
    constructor.
  - intros v Hv. unfold present. simpl in Hv |- *.
    repeat (apply elem_of_cons in Hv as [->|Hv]; [simpl; rewrite !elem_of_cons; tauto|]).
    by apply elem_of_nil in Hv.
  - intros l x Hl Hx. apply list_elem_of_singleton in Hl as ->. unfold present.
    destruct Hx as [[= <-]|[= <-]]; simpl; rewrite !elem_of_cons; tauto.
  - intros l f t Hl He. apply list_elem_of_singleton in Hl as ->.
    by injection He as <- <-.
  - vm_compute. repeat (constructor; [by rewrite ?elem_of_cons, elem_of_nil; intuition discriminate|]).
    constructor.
Qed.

Lemma present_same s s' x :
  Note.id <$> notes s' = Note.id <$> notes s → present x s → present x s'.
Proof. unfold present. by intros ->. Qed.

Lemma write_note_ids n s : Note.id <$> notes (write_note n s) = Note.id <$> notes s.
Proof.
  unfold write_note. simpl. rewrite <- list_fmap_compose. apply list_fmap_ext.
  intros i m _. simpl. by destruct (decide _) as [->|].
Qed.

Lemma insert_note_consistent n s s1 :
  consistent s → insert_note n s = Ok s1 → consistent s1.
Proof.
  intros [] H. unfold insert_note in H. destruct (decide _) as [|Hnew]; [done|].
  injection H as <-.
  assert (Hmono : ∀ x, present x s → present x (mk_db (notes s ++ [n]) (note_versions s) (links s))).
  { intros x Hx. unfold present in *. simpl. rewrite fmap_app, elem_of_app. by left. }
  split; simpl; auto.
  - rewrite fmap_app. apply NoDup_app. split; [done|]. split; [|apply NoDup_singleton].
    intros x Hx Hx'. apply list_elem_of_singleton in Hx'. by subst.
  - eauto.
Qed.

Lemma insert_version_consistent v s s1 :
  consistent s → present (NoteVersion.note_id v) s → insert_version v s = Ok s1 →
  consistent s1.
Proof.
  intros [] Hv H. unfold insert_version in H. destruct (decide _) as [|Hnew]; [done|].
  injection H as <-. split; simpl; auto.
  - rewrite fmap_app. apply NoDup_app. split; [done|]. split; [|apply NoDup_singleton].
    intros x Hx Hx'. apply list_elem_of_singleton in Hx'. by subst.
  - intros w [Hw| ->%list_elem_of_singleton]%elem_of_app; [by apply versions_owned0|done].
Qed.

Lemma write_note_consistent n s : consistent s → consistent (write_note n s).
Proof.
  intros []. pose proof (write_note_ids n s) as Hids.
  split; [by rewrite Hids|done|done| | |done|done].
  - intros v Hv. apply (present_same s); [done|]. by apply versions_owned0.
  - intros l x Hl Hx. apply (present_same s); [done|]. by eapply links_attached0.
Qed.

Lemma create_note_consistent note uuid uuid' t t' s :
  consistent s → consistent (create_note note uuid uuid' t t' s).2.
Proof.
  intros Hs. unfold create_note.
  destruct (insert_note _ s) as [s1|] eqn:E1; [|done].
  pose proof (insert_note_consistent _ _ _ Hs E1) as Hs1.
  destruct (insert_version _ s1) as [s2|] eqn:E2; [|done]. simpl.
  eapply insert_version_consistent; [exact Hs1| |exact E2].
  unfold insert_note in E1. destruct (decide _); [done|]. injection E1 as <-.
  unfold present. simpl. rewrite fmap_app, elem_of_app. right. by left.
Qed.

Lemma update_note_consistent note_id d uuid t t' s :
  consistent s → consistent (update_note note_id d uuid t t' s).2.
Proof.
  intros Hs. unfold update_note.
  destruct (first _) as [note|] eqn:Hnote; [|done].
  destruct (decide _); [done|].
  destruct (insert_version _ s) as [s1|] eqn:E; [|done]. simpl.
  apply write_note_consistent. eapply insert_version_consistent; [exact Hs| |exact E].
  simpl. apply present_lookup. by rewrite Hnote.
Qed.

Lemma endpoints_joins f t l : endpoints l = Some (f, t) ↔ joins f t l.
Proof.
  unfold endpoints, joins. destruct (Link.from_id l), (Link.to_id l); split;
    try (intros [= -> ->]; done); try (intros [[= ->] [= ->]]; done); try (by intros []); done.
Qed.

Lemma create_link_consistent link uuid t s :
  consistent s → consistent (create_link link uuid t s).2.
Proof.
  intros Hs. unfold create_link.
  destruct (first (filter (λ n, Note.id n = LinkCreate.from_id link) _)) as [a|] eqn:Ha; [|done].
  destruct (first (filter (λ n, Note.id n = LinkCreate.to_id link) _)) as [b|] eqn:Hb; [|done].
  destruct (decide _) as [|Hne]; [done|].
  destruct (first (filter _ (links s))) eqn:Hdup; [done|].
  unfold insert_link. simpl. destruct (decide _) as [|Hnew]; [done|]. simpl.
  destruct Hs. split; simpl; auto.
  - rewrite fmap_app. apply NoDup_app. split; [done|]. split; [|apply NoDup_singleton].
    intros x Hx Hx'. apply list_elem_of_singleton in Hx'. by subst.
  - intros l x [Hl| ->%list_elem_of_singleton]%elem_of_app Hx; [by eapply links_attached0|].
    simpl in Hx. apply present_lookup.
    destruct Hx as [[= <-]|[= <-]]; [by exists a|by exists b].
  - intros l f t' [Hl| ->%list_elem_of_singleton]%elem_of_app He; [by eapply links_no_self0|].
    by injection He as <- <-.
  - rewrite omap_app. apply NoDup_app. split; [done|]. split; [|apply NoDup_singleton].
    intros p Hp Hp'. apply list_elem_of_singleton in Hp' as ->.
    apply list_elem_of_omap in Hp as (l & Hl & He).
    rewrite no_link_lookup in Hdup. apply (Hdup l Hl). by apply endpoints_joins.
Qed.

Lemma delete_link_consistent link_id t s :
  consistent s → consistent (delete_link link_id t s).2.
Proof.
  intros Hs. unfold delete_link. destruct (first _) as [link|]; [|done]. simpl.
  destruct Hs. split; simpl; auto.
  - eapply sublist_NoDup; [exact link_ids_unique0|].
    apply fmap_sublist, sublist_filter.
  - intros l x [_ Hl]%list_elem_of_filter. by apply links_attached0.
  - intros l f t' [_ Hl]%list_elem_of_filter. by apply links_no_self0.
  - eapply sublist_NoDup; [exact links_no_repeat0|].
    generalize (links s). intros ls. induction ls as [|l ls IH]; [constructor|].
    rewrite filter_cons. destruct (decide _); simpl.
    + destruct (endpoints l); [by constructor|done].
    + destruct (endpoints l); [by constructor|done].
Qed.

(** X1: every mutating handler but [delete_note] leaves a consistent store
    consistent, whether the call succeeds or fails. *)
Theorem handlers_keep_consistency (s : db) :
  consistent s →
  (∀ note uuid uuid' t t', consistent (create_note note uuid uuid' t t' s).2)
  ∧ (∀ note_id d uuid t t', consistent (update_note note_id d uuid t t' s).2)
  ∧ (∀ link uuid t, consistent (create_link link uuid t s).2)
  ∧ (∀ link_id t, consistent (delete_link link_id t s).2).
Proof.
  intros Hs. split; [|split; [|split]]; intros.
  - by apply create_note_consistent.
  - by apply update_note_consistent.
  - by apply create_link_consistent.
  - by apply delete_link_consistent.
Qed.

Lemma handlers_keep_consistency_witness :
  consistent (create_link (LinkCreate.mk "y" "x" EXTENDS) "l2" 9 sample).2
  ∧ consistent (create_note draft "z" "v3" 7 7 sample).2.
Proof.
  destruct (handlers_keep_consistency sample sample_consistent) as (H1 & _ & H3 & _).
  split; [apply H3|apply H1].
Defined.

Lemma endpoints_detach note_id l p :
  endpoints (detach note_id l) = Some p → endpoints l = Some p.
Proof.
  unfold endpoints, detach. simpl.
  destruct (decide (Link.from_id l = _)), (decide (Link.to_id l = _)); try done.
  by destruct (Link.from_id l).
Qed.

Lemma delete_note_consistent note_id t s :
  consistent s → consistent (delete_note note_id t s).2.
Proof.
  intros Hs. unfold delete_note. destruct (first _) as [note|]; [|done]. simpl.
  destruct Hs.
  assert (Hkept : ∀ x, x ≠ Note.id note → present x s → present x (session_delete_note note s)).
  { intros x Hx (n & -> & Hn)%list_elem_of_fmap. apply list_elem_of_fmap.
    exists n. split; [done|]. by apply list_elem_of_filter. }
  unfold session_delete_note in *. split; simpl.
  - eapply sublist_NoDup; [exact note_ids_unique0|]. apply fmap_sublist, sublist_filter.
  - eapply sublist_NoDup; [exact version_ids_unique0|]. apply fmap_sublist, sublist_filter.
  - rewrite <- list_fmap_compose.
    by rewrite (list_fmap_ext (Link.id ∘ detach (Note.id note)) Link.id (links s)).
  - intros v [Hne Hv]%list_elem_of_filter. apply Hkept; [done|]. by apply versions_owned0.
  - intros l' x (l & -> & Hl)%list_elem_of_fmap Hx. unfold detach in Hx. simpl in Hx.
    destruct Hx as [Hx|Hx]; destruct (decide _) as [|Hne] in Hx; try done.
    + apply Hkept; [congruence|]. eapply links_attached0; eauto.
    + apply Hkept; [congruence|]. eapply links_attached0; eauto.
  - intros l' f t' (l & -> & Hl)%list_elem_of_fmap He.
    apply endpoints_detach in He. by eapply links_no_self0.
  - eapply sublist_NoDup; [exact links_no_repeat0|].
    generalize (links s). intros ls. induction ls as [|l ls IH]; [constructor|].
    rewrite fmap_cons. simpl.
    destruct (endpoints (detach (Note.id note) l)) as [p|] eqn:E.
    + apply endpoints_detach in E. rewrite E. by constructor.
    + destruct (endpoints l); [by constructor|done].
Qed.

(** X2: [delete_note] leaves a consistent store consistent; when the note
    is in the store, afterwards the note is not in the store, it has no
    version left, no link names it as source or target, every other note
    is still in the store with its row and its versions, and no link row
    is added or removed. *)
Theorem delete_note_keeps_consistency (note_id : string) (t : Z) (s : db) :
  consistent s →
  let s' := (delete_note note_id t s).2 in
  consistent s'
  ∧ (present note_id s →
     ¬ present note_id s'
     ∧ versions_of note_id s' = []
     ∧ (∀ l, l ∈ links s' → Link.from_id l ≠ Some note_id ∧ Link.to_id l ≠ Some note_id)
     ∧ (∀ other, other ≠ note_id →
          filter (λ n, Note.id n = other) (notes s') = filter (λ n, Note.id n = other) (notes s)
          ∧ versions_of other s' = versions_of other s)
     ∧ Link.id <$> links s' = Link.id <$> links s).
Proof.
  intros Hs. split; [by apply delete_note_consistent|].
  unfold delete_note. intros [note Hnote]%present_lookup. rewrite Hnote. simpl.
  apply first_filter_Some in Hnote as [<- _].
  unfold session_delete_note, present, versions_of. simpl.
  split; [|split; [|split; [|split]]].
  - intros (n & Hn & Hin)%list_elem_of_fmap.
    apply list_elem_of_filter in Hin as [Hne _]. by destruct Hne.
  - apply elem_of_nil_inv. intros v Hv.
    apply list_elem_of_filter in Hv as [Hv Hin].
    apply list_elem_of_filter in Hin as [Hne _]. by destruct Hne.
  - intros l (l0 & -> & _)%list_elem_of_fmap. unfold detach. simpl.
    split; by destruct (decide _).
  - intros other Hother. split.
    + rewrite list_filter_filter. apply list_filter_iff. intros n. split; [tauto|].
      intros Hn. split; [done|]. congruence.
    + rewrite list_filter_filter. apply list_filter_iff. intros v. split; [tauto|].
      intros Hv. split; [done|]. congruence.
  - rewrite <- list_fmap_compose. by apply list_fmap_ext.
Qed.

Lemma delete_note_keeps_consistency_witness :
  consistent (delete_note "x" 9 sample).2
  ∧ ¬ present "x" (delete_note "x" 9 sample).2
  ∧ versions_of "y" (delete_note "x" 9 sample).2 = versions_of "y" sample.
Proof.
  destruct (delete_note_keeps_consistency "x" 9 sample sample_consistent) as [H1 H2].
  destruct H2 as (Hgone & _ & _ & Hother & _); [by left|].
  split; [exact H1|]. split; [exact Hgone|]. by apply Hother.
Defined.

(** ** [create_note] *)

(** X3: with identifiers that are new, [create_note] on a consistent store
    returns the note with its title and content stripped, appends it to
    the notes, and leaves it with exactly one version, the creation
    record with empty old content, and with no link; the note is in the
    listing from the start with a limit above the number of notes that
    fits a signed 64-bit integer. *)
Theorem create_note_creates (note : NoteCreate.t) (uuid uuid' : string) (t t' : Z) (s : db) :
  consistent s →
  uuid ∉ Note.id <$> notes s →
  uuid' ∉ NoteVersion.id <$> note_versions s →
  let r := create_note note uuid uuid' t t' s in
  let n := new_note note uuid t in
  r.1 = Ok n
  ∧ notes r.2 = notes s ++ [n]
  ∧ versions_of uuid r.2 = [creation_version uuid' uuid t']
  ∧ (∀ l, l ∈ links r.2 → Link.from_id l ≠ Some uuid ∧ Link.to_id l ≠ Some uuid)
  ∧ ∀ engine limit, (length (notes s) < Z.to_nat limit)%nat → limit < 2 ^ 63 →
      ∃ ns, get_all_notes engine 0 limit None None r.2 = Ok ns ∧ n ∈ ns.
Proof.
  intros Hs Hn Hv. simpl. unfold create_note, insert_note.
  rewrite decide_False by done. unfold insert_version. simpl.
  rewrite decide_False by done. simpl.
  assert (Hold : filter (λ v, NoteVersion.note_id v = uuid) (note_versions s) = []).
  { apply elem_of_nil_inv. intros v [Hid Hin]%list_elem_of_filter.
    apply Hn. rewrite <- Hid. by apply (versions_owned s). }
  assert (Hvs : filter (λ v, NoteVersion.note_id v = uuid)
                  (note_versions s ++ [creation_version uuid' uuid t'])
                = [creation_version uuid' uuid t']).
  { rewrite filter_app, Hold. simpl. by rewrite filter_cons_True. }
  split; [done|]. split; [done|]. split; [exact Hvs|]. split.
  - intros l Hl. split; intros Hx; apply Hn; eapply (links_attached s); eauto.
  - intros engine limit Hlim Hfit. unfold get_all_notes, offset_limit, int64. simpl.
    rewrite decide_True by lia. rewrite decide_True by lia. eexists. split; [done|].
    replace (Z.to_nat 0) with 0%nat by done. rewrite drop_0.
    rewrite take_ge.
    + rewrite order_by_desc_perm. apply elem_of_app. right. by left.
    + rewrite order_by_desc_perm, length_app. simpl. lia.
Qed.

Lemma create_note_creates_witness :
  (create_note draft "z" "v3" 7 8 sample).1 = Ok (Note.mk "z" "Z" "third" IDEA OTHER 7 None)
  ∧ versions_of "z" (create_note draft "z" "v3" 7 8 sample).2
    = [NoteVersion.mk "v3" "z" "" "Initial creation" 8].
Proof.
  destruct (create_note_creates draft "z" "v3" 7 8 sample sample_consistent)
    as (H1 & _ & H3 & _).
  - exact absent_sample.
  - simpl. rewrite !elem_of_cons, elem_of_nil. intuition discriminate.
  - split; [exact H1|exact H3].
Defined.

(** X4: [create_note] is not all-or-nothing.  When the note identifier is
    new but the version identifier is taken, the call fails with an
    internal error and the note stays in the store without any version;
    when the note identifier is taken, the call fails and the store is
    unchanged. *)
Theorem create_note_partial (note : NoteCreate.t) (uuid uuid' : string) (t t' : Z) (s : db) :
  let r := create_note note uuid uuid' t t' s in
  (uuid ∉ Note.id <$> notes s → uuid' ∈ NoteVersion.id <$> note_versions s →
   fails_with r.1 InternalError
   ∧ notes r.2 = notes s ++ [new_note note uuid t]
   ∧ note_versions r.2 = note_versions s
   ∧ (consistent s → versions_of uuid r.2 = []))
  ∧ (uuid ∈ Note.id <$> notes s → fails_with r.1 InternalError ∧ r.2 = s).
Proof.
  simpl. unfold create_note, insert_note. split.
  - intros Hn Hv. rewrite decide_False by done. unfold insert_version. simpl.
    rewrite decide_True by done. simpl. split; [by vm_compute|]. split; [done|].
    split; [done|]. intros Hs. unfold versions_of. simpl.
    apply elem_of_nil_inv. intros v [Hid Hin]%list_elem_of_filter.
    apply Hn. rewrite <- Hid. by apply (versions_owned s).
  - intros Hn. rewrite decide_True by done. by vm_compute.
Qed.

Lemma create_note_partial_witness :
  fails_with (create_note draft "z" "v1" 7 8 sample).1 InternalError
  ∧ present "z" (create_note draft "z" "v1" 7 8 sample).2
  ∧ versions_of "z" (create_note draft "z" "v1" 7 8 sample).2 = [].
Proof.
  destruct (create_note_partial draft "z" "v1" 7 8 sample) as [H _].
  destruct H as (H1 & H2 & _ & H4).
  - exact absent_sample.
  - simpl. rewrite !elem_of_cons. tauto.
  - split; [exact H1|]. split; [|exact (H4 sample_consistent)].
    unfold present. rewrite H2, fmap_app, elem_of_app. right. by left.
Defined.

(** ** [update_note] *)

Lemma lstrip_cases s :
  blank s = true ∨ ∃ c r, lstrip s = String c r ∧ isspace c = false.
Proof.
  induction s as [|c r IH]; simpl; [by left|].
  destruct (isspace c) eqn:Hc; simpl; [exact IH|]. right. eauto.
Qed.

Lemma strip_empty s : strip s = "" ↔ blank s = true.
Proof.
  split; [|apply strip_blank].
  unfold strip. destruct (lstrip_cases s) as [|(c & r & -> & Hc)]; [done|].
  simpl. rewrite Hc. by destruct (rstrip r).
Qed.

(** X5: [update_note] succeeds exactly when the note is in the store, the
    change reason has a character that is not white space and the version
    identifier is new; every failed call leaves the store as it was. *)
Theorem update_note_success (note_id : string) (d : NoteUpdate.t) (uuid : string)
    (t t' : Z) (s : db) :
  let r := update_note note_id d uuid t t' s in
  (is_ok r.1 ↔
   present note_id s
   ∧ blank (NoteUpdate.change_reason d) = false
   ∧ uuid ∉ NoteVersion.id <$> note_versions s)
  ∧ (¬ is_ok r.1 → r.2 = s).
Proof.
  simpl. unfold update_note.
  destruct (first _) as [note|] eqn:Hnote.
  2:{ split; [|done]. split; [done|]. intros (Hp%present_lookup & _).
      rewrite Hnote in Hp. by destruct Hp. }
  assert (present note_id s) as Hp by (apply present_lookup; eauto).
  destruct (decide _) as [Hblank|Hreason].
  { split; [|done]. split; [done|]. intros (_ & Hb & _).
    destruct Hblank as [Hb'|Hb'%strip_empty]; [|congruence].
    rewrite Hb' in Hb. done. }
  unfold insert_version. simpl. destruct (decide _) as [Hused|Hnew]; simpl.
  - split; [|done]. split; [done|]. by intros (_ & _ & ?).
  - split; [|done]. split; [|done]. intros _. split; [done|]. split; [|done].
    destruct (blank _) eqn:Hb; [|done]. destruct Hreason. right. by apply strip_blank.
Qed.

Lemma update_note_success_witness :
  is_ok (update_note "x" (data (edit "draft" "why" "v3" 5)) "v3" 5 5 sample).1
  ∧ (update_note "x" (data (edit "draft" "why" "v1" 5)) "v1" 5 5 sample).2 = sample.
Proof.
  destruct (update_note_success "x" (data (edit "draft" "why" "v3" 5)) "v3" 5 5 sample) as [H1 _].
  destruct (update_note_success "x" (data (edit "draft" "why" "v1" 5)) "v1" 5 5 sample) as [_ H2].
  split.
  - apply H1. split; [by left|]. split; [done|].
    simpl. rewrite !elem_of_cons, elem_of_nil. intuition discriminate.
  - apply H2. by vm_compute.
Defined.

Lemma filter_write_other (n : Note.t) other (rows : list Note.t) :
  other ≠ Note.id n →
  filter (λ m, Note.id m = other) ((λ m, if decide (Note.id m = Note.id n) then n else m) <$> rows)
  = filter (λ m, Note.id m = other) rows.
Proof.
  intros Hne. induction rows as [|m rows IH]; [done|].
  rewrite fmap_cons, !filter_cons, IH.
  destruct (decide (Note.id m = Note.id n)) as [Heq|]; [|done].
  rewrite !decide_False; [done|congruence|congruence].
Qed.

(** X6: a successful [update_note] rewrites the row of the note and no
    other: the returned note is stored, it has the identifier and the
    creation instant of the row it replaces, the fields the request
    leaves out unchanged, a given title or content stripped and the
    update instant set; the rows of the other notes and the links are as
    before. *)
Theorem update_note_frame (note_id : string) (d : NoteUpdate.t) (uuid : string)
    (t t' : Z) (s : db) (n : Note.t) (s' : db) :
  update_note note_id d uuid t t' s = (Ok n, s') →
  (∃ old, old ∈ notes s
          ∧ Note.id old = note_id
          ∧ Note.id n = note_id
          ∧ Note.created_at n = Note.created_at old
          ∧ Note.updated_at n = Some t'
          ∧ Note.title n = from_option strip (Note.title old) (NoteUpdate.title d)
          ∧ Note.content n = from_option strip (Note.content old) (NoteUpdate.content d)
          ∧ (NoteUpdate.note_type d = None → Note.note_type n = Note.note_type old)
          ∧ (NoteUpdate.domain d = None → Note.domain n = Note.domain old))
  ∧ n ∈ notes s'
  ∧ links s' = links s
  ∧ Note.id <$> notes s' = Note.id <$> notes s
  ∧ ∀ other, other ≠ note_id →
      filter (λ m, Note.id m = other) (notes s') = filter (λ m, Note.id m = other) (notes s).
Proof.
  unfold update_note.
  destruct (first _) as [old|] eqn:Hold; [|by intros [=]].
  destruct (decide _); [by intros [=]|].
  unfold insert_version. simpl. destruct (decide _); [by intros [=]|].
  intros [= <- <-]. pose proof (first_filter_Some _ _ _ Hold) as [Hid Hin].
  split; [|split; [|split; [done|split]]].
  - exists old. simpl. repeat split; try done; by intros ->.
  - unfold write_note. simpl. apply list_elem_of_fmap. exists old. split; [|done].
    simpl. by rewrite decide_True.
  - apply (write_note_ids _ (mk_db (notes s) _ (links s))).
  - intros other Hne. unfold write_note. simpl.
    match goal with |- context [(λ m, if decide (Note.id m = _) then ?x else m)] =>
      pose proof (filter_write_other x other (notes s)) as Hw
    end.
    simpl in Hw. rewrite Hw by congruence. done.
Qed.

Lemma update_note_frame_witness :
  ∃ n s', update_note "x" (data (edit " draft " "why" "v3" 5)) "v3" 5 5 sample = (Ok n, s')
          ∧ Note.content n = "draft" ∧ Note.title n = "X"
          ∧ filter (λ m, Note.id m = "y") (notes s') = [note_y].
Proof.
  eexists _, _. split; [reflexivity|].
  match goal with |- Note.content ?n = _ ∧ _ ∧ filter _ (notes ?s') = _ =>
    destruct (update_note_frame "x" (data (edit " draft " "why" "v3" 5)) "v3" 5 5 sample n s'
                eq_refl) as (_ & _ & _ & _ & H)
  end.
  split; [reflexivity|]. split; [reflexivity|]. by rewrite H.
Defined.

(** ** Link listings *)

Lemma filter_agree {A} (P Q : A → Prop) `{!∀ x, Decision (P x), !∀ x, Decision (Q x)}
    (rows : list A) :
  (∀ a, a ∈ rows → P a ↔ Q a) → filter P rows = filter Q rows.
Proof.
  induction rows as [|a rows IH]; intros HPQ; [done|].
  assert (P a ↔ Q a) as Ha by (apply HPQ; by left).
  rewrite !filter_cons, IH by (intros b Hb; apply HPQ; by right).
  destruct (decide (P a)), (decide (Q a)); tauto.
Qed.

Lemma filter_kept {A} (P : A → Prop) `{!∀ x, Decision (P x)} (rows : list A) :
  (∀ a, a ∈ rows → P a) → filter P rows = rows.
Proof.
  induction rows as [|a rows IH]; intros HP; [done|].
  rewrite filter_cons_True by (apply HP; by left).
  rewrite IH; [done|]. intros b Hb. apply HP. by right.
Qed.

Lemma link_responses_ok ls :
  Forall (λ l, is_Some (endpoints l)) ls →
  ∃ rs, link_responses ls = Ok rs
        ∧ LinkResponse.id <$> rs = Link.id <$> ls
        ∧ Some ∘ LinkResponse.from_id <$> rs = Link.from_id <$> ls
        ∧ Some ∘ LinkResponse.to_id <$> rs = Link.to_id <$> ls.
Proof.
  induction 1 as [|l ls [p Hp] _ (rs & Hrs & Hi & Hf & Ht)]; simpl; [by exists []|].
  unfold link_response, endpoints in *.
  destruct (Link.from_id l) as [f|] eqn:Ef; [|done].
  destruct (Link.to_id l) as [t|] eqn:Et; [|done].
  simpl. rewrite Hrs. simpl. eexists. split; [done|].
  rewrite !fmap_cons, Hi, Hf, Ht. simpl. by rewrite ?Ef, ?Et.
Qed.

Lemma link_responses_null ls l :
  l ∈ ls → endpoints l = None → fails_with (link_responses ls) InternalError.
Proof.
  intros Hl Hnull. induction ls as [|l' ls IH]; [by apply elem_of_nil in Hl|].
  simpl. apply elem_of_cons in Hl as [<-|Hl].
  - unfold link_response, endpoints in *.
    destruct (Link.from_id l), (Link.to_id l); try done; by vm_compute.
  - unfold link_response at 1.
    destruct (Link.from_id l'), (Link.to_id l'); try by vm_compute.
    simpl. specialize (IH Hl). by destruct (link_responses ls).
Qed.

(** X7: [get_outgoing_links] fails with not-found for a note that is not
    in the store and otherwise returns the links that start at the note,
    in table order; the route sends them when each has a target, and
    answers with an internal error as soon as one of them has a null
    target. *)
Theorem outgoing_links_outcomes (note_id : string) (s : db) :
  let outgoing := filter (λ l, Link.from_id l = Some note_id) (links s) in
  let served := serve_links (get_outgoing_links note_id s) in
  (¬ present note_id s →
   fails_with (get_outgoing_links note_id s) NotFound ∧ fails_with served NotFound)
  ∧ (present note_id s → get_outgoing_links note_id s = Ok outgoing)
  ∧ (present note_id s → (∀ l, l ∈ outgoing → is_Some (Link.to_id l)) →
     ∃ rs, served = Ok rs
           ∧ LinkResponse.id <$> rs = Link.id <$> outgoing
           ∧ Some ∘ LinkResponse.to_id <$> rs = Link.to_id <$> outgoing
           ∧ ∀ r, r ∈ rs → LinkResponse.from_id r = note_id)
  ∧ (present note_id s → (∃ l, l ∈ outgoing ∧ Link.to_id l = None) →
     fails_with served InternalError).
Proof.
  simpl. unfold get_outgoing_links. split; [|split; [|split]].
  - intros Habs. rewrite (absent_lookup _ _ Habs). by vm_compute.
  - by intros [note ->]%present_lookup.
  - intros [note ->]%present_lookup Hto. simpl.
    destruct (link_responses_ok (filter (λ l, Link.from_id l = Some note_id) (links s)))
      as (rs & Hrs & Hi & Hf & Ht).
    { apply Forall_forall. intros l Hl. destruct (Hto l Hl) as [t Ht].
      apply list_elem_of_filter in Hl as [Hf _]. unfold endpoints. rewrite Hf, Ht. eauto. }
    exists rs. split; [done|]. split; [done|]. split; [done|].
    intros r Hr. assert (Some (LinkResponse.from_id r) ∈ Some ∘ LinkResponse.from_id <$> rs) as Hin.
    { apply list_elem_of_fmap. by exists r. }
    rewrite Hf in Hin. apply list_elem_of_fmap in Hin as (l & Heq & [Hl _]%list_elem_of_filter).
    congruence.
  - intros [note ->]%present_lookup (l & Hl & Hnull). simpl.
    apply (link_responses_null _ l Hl). unfold endpoints. rewrite Hnull.
    by destruct (Link.from_id l).
Qed.

Lemma outgoing_links_outcomes_witness :
  (∃ rs, serve_links (get_outgoing_links "x" sample) = Ok rs ∧ LinkResponse.id <$> rs = ["l1"])
  ∧ fails_with (get_outgoing_links "z" sample) NotFound.
Proof.
  destruct (outgoing_links_outcomes "x" sample) as (_ & _ & H2 & _).
  destruct (outgoing_links_outcomes "z" sample) as (H1 & _).
  split; [|exact (proj1 (H1 absent_sample))].
  destruct H2 as (rs & Hrs & Hids & _); [by left| |eauto].
  intros l Hl. apply list_elem_of_singleton in Hl as ->. by eexists.
Defined.

(** X8: after [delete_note] of a note that was the target of a link, the
    link is still returned among the outgoing links of its source, with a
    null target, and the listing route answers with an internal error. *)
Theorem listing_after_delete (x y : string) (l : Link.t) (t : Z) (s : db) :
  present x s → present y s → x ≠ y → l ∈ links s → joins x y l →
  let s' := (delete_note y t s).2 in
  present x s'
  ∧ (∃ ls l', get_outgoing_links x s' = Ok ls ∧ l' ∈ ls
              ∧ Link.id l' = Link.id l ∧ Link.to_id l' = None)
  ∧ fails_with (serve_links (get_outgoing_links x s')) InternalError.
Proof.
  intros Hx Hy Hne Hl [Hf Ht]. simpl. unfold delete_note.
  apply present_lookup in Hy as [note Hnote]. rewrite Hnote. simpl.
  apply first_filter_Some in Hnote as [<- _].
  assert (Hx' : present x (session_delete_note note s)).
  { apply list_elem_of_fmap in Hx as (n & -> & Hn). apply list_elem_of_fmap.
    exists n. split; [done|]. unfold session_delete_note. simpl.
    apply list_elem_of_filter. split; [congruence|done]. }
  split; [done|]. unfold get_outgoing_links.
  apply present_lookup in Hx' as [n ->].
  assert (Hin : detach (Note.id note) l
                ∈ filter (λ l0, Link.from_id l0 = Some x) (links (session_delete_note note s))).
  { apply list_elem_of_filter. split.
    - unfold detach. simpl. rewrite decide_False; [done|congruence].
    - unfold session_delete_note. simpl. by apply list_elem_of_fmap_2. }
  assert (Hto : Link.to_id (detach (Note.id note) l) = None).
  { unfold detach. simpl. by rewrite decide_True. }
  split.
  - eexists _, _. split; [done|]. split; [exact Hin|]. done.
  - simpl. apply (link_responses_null _ _ Hin). unfold endpoints. rewrite Hto.
    by destruct (Link.from_id (detach (Note.id note) l)).
Qed.

Lemma listing_after_delete_witness :
  fails_with (serve_links (get_outgoing_links "x" (delete_note "y" 9 sample).2)) InternalError.
Proof.
  apply (listing_after_delete "x" "y" link_xy 9 sample).
  - by left.
  - by right; left.
  - done.
  - by left.
  - done.
Defined.

(** X9: a link that [create_link] returns is listed last among the
    outgoing links of its source and among the incoming links of its
    target, after the links listed before the call. *)
Theorem created_link_listed (link : LinkCreate.t) (uuid : string) (t : Z) (s : db)
    (l : Link.t) (s' : db) :
  create_link link uuid t s = (Ok l, s') →
  (∃ outs, get_outgoing_links (LinkCreate.from_id link) s = Ok outs
           ∧ get_outgoing_links (LinkCreate.from_id link) s' = Ok (outs ++ [l]))
  ∧ (∃ ins, get_incoming_links (LinkCreate.to_id link) s = Ok ins
            ∧ get_incoming_links (LinkCreate.to_id link) s' = Ok (ins ++ [l]))
  ∧ ∃ r, serve_links (Ok [l]) = Ok [r]
         ∧ LinkResponse.id r = uuid
         ∧ LinkResponse.from_id r = LinkCreate.from_id link
         ∧ LinkResponse.to_id r = LinkCreate.to_id link.
Proof.
  unfold create_link.
  destruct (first (filter (λ n, Note.id n = LinkCreate.from_id link) _)) as [a|] eqn:Ha;
    [|by intros [=]].
  destruct (first (filter (λ n, Note.id n = LinkCreate.to_id link) _)) as [b|] eqn:Hb;
    [|by intros [=]].
  destruct (decide _); [by intros [=]|].
  destruct (first (filter _ (links s))); [by intros [=]|].
  unfold insert_link. simpl. destruct (decide _); [by intros [=]|].
  intros [= <- <-]. simpl. unfold get_outgoing_links, get_incoming_links. simpl.
  rewrite Ha, Hb. split; [|split].
  - eexists. split; [done|]. by rewrite filter_app, filter_cons_True.
  - eexists. split; [done|]. by rewrite filter_app, filter_cons_True.
  - by eexists.
Qed.

Lemma created_link_listed_witness :
  ∃ outs, get_outgoing_links "y" sample = Ok outs
          ∧ get_outgoing_links "y" (create_link (LinkCreate.mk "y" "x" EXTENDS) "l2" 9 sample).2
            = Ok (outs ++ [Link.mk "l2" (Some "y") (Some "x") EXTENDS 9]).
Proof.
  destruct (created_link_listed (LinkCreate.mk "y" "x" EXTENDS) "l2" 9 sample
              (Link.mk "l2" (Some "y") (Some "x") EXTENDS 9)
              (create_link (LinkCreate.mk "y" "x" EXTENDS) "l2" 9 sample).2 eq_refl) as [H _].
  exact H.
Defined.

(** ** [delete_link] *)

(** X10: [delete_link] fails with not-found, changing nothing, when no
    link has the identifier; otherwise it removes the links with that
    identifier and nothing else, so a second call fails with not-found;
    deleting the link [create_link] has just returned restores the store
    as it was before the link was created. *)
Theorem delete_link_outcomes (link_id : string) (t : Z) (s : db) :
  let r := delete_link link_id t s in
  (link_id ∉ Link.id <$> links s → fails_with r.1 NotFound ∧ r.2 = s)
  ∧ (link_id ∈ Link.id <$> links s →
     is_ok r.1
     ∧ r.2 = mk_db (notes s) (note_versions s) (filter (λ l, Link.id l ≠ link_id) (links s))
     ∧ ∀ t', fails_with (delete_link link_id t' r.2).1 NotFound)
  ∧ (∀ link uuid t0 s0 l, create_link link uuid t0 s0 = (Ok l, s) → link_id = Link.id l →
     r.2 = s0).
Proof.
  simpl. unfold delete_link.
  assert (Hgone : ∀ rows, first (filter (λ l, Link.id l = link_id)
                                   (filter (λ l, Link.id l ≠ link_id) rows)) = None).
  { intros rows. apply (first_filter_None (λ l, Link.id l = link_id)).
    intros l [Hne _]%list_elem_of_filter. done. }
  split; [|split].
  - intros Habs.
    destruct (first _) as [l|] eqn:E; [|by vm_compute].
    apply first_filter_Some in E as [<- Hl]. destruct Habs. by apply list_elem_of_fmap_2.
  - intros (l0 & -> & Hl0)%list_elem_of_fmap.
    destruct (first _) as [l|] eqn:E.
    2:{ rewrite (first_filter_None (λ l, Link.id l = Link.id l0)) in E. by destruct (E l0). }
    apply first_filter_Some in E as [-> _]. simpl. split; [done|]. split; [done|].
    intros t'. rewrite Hgone. by vm_compute.
  - intros link uuid t0 s0 l Hc ->. unfold create_link in Hc.
    destruct (first _) in Hc; [|by injection Hc].
    destruct (first _) in Hc; [|by injection Hc].
    destruct (decide _) in Hc; [by injection Hc|].
    destruct (first _) in Hc; [by injection Hc|].
    unfold insert_link in Hc. simpl in Hc. destruct (decide _) as [|Hnew] in Hc; [by injection Hc|].
    injection Hc as <- <-. simpl.
    assert (filter (λ l, Link.id l = uuid) (links s0) = []) as Hnone.
    { apply elem_of_nil_inv. intros l [Hid Hl]%list_elem_of_filter.
      apply Hnew. simpl. rewrite <- Hid. by apply list_elem_of_fmap_2. }
    rewrite filter_app, Hnone. simpl. rewrite filter_cons_True by done. simpl.
    rewrite filter_app, (filter_cons_False _ _ []) by (simpl; tauto).
    rewrite filter_nil, app_nil_r.
    assert (filter (λ l, Link.id l ≠ uuid) (links s0) = links s0) as ->; [|by destruct s0].
    apply filter_kept. intros l Hl Hid. apply Hnew. simpl. rewrite <- Hid.
    by apply list_elem_of_fmap_2.
Qed.

Lemma delete_link_outcomes_witness :
  is_ok (delete_link "l1" 9 sample).1
  ∧ fails_with (delete_link "l9" 9 sample).1 NotFound
  ∧ (delete_link "l2" 10 (create_link (LinkCreate.mk "y" "x" EXTENDS) "l2" 9 sample).2).2
    = sample.
Proof.
  destruct (delete_link_outcomes "l1" 9 sample) as (_ & H2 & _).
  destruct (delete_link_outcomes "l9" 9 sample) as (H1 & _).
  destruct (delete_link_outcomes "l2" 10
              (create_link (LinkCreate.mk "y" "x" EXTENDS) "l2" 9 sample).2) as (_ & _ & H3).
  split; [|split].
  - apply H2. by left.
  - apply H1. simpl. intros H. apply list_elem_of_singleton in H. discriminate H.
  - apply (H3 (LinkCreate.mk "y" "x" EXTENDS) "l2" 9 sample
              (Link.mk "l2" (Some "y") (Some "x") EXTENDS 9)); reflexivity.
Defined.

(** ** [get_statistics] *)

Lemma count_by_type (rows : list Note.t) :
  (length (filter (λ n, Note.note_type n = IDEA) rows)
   + length (filter (λ n, Note.note_type n = QUESTION) rows)
   + length (filter (λ n, Note.note_type n = DEFINITION) rows) = length rows)%nat.
Proof.
  induction rows as [|n rows IH]; [done|].
  rewrite !filter_cons. destruct (Note.note_type n) eqn:E;
    repeat (destruct (decide _); try done); simpl; lia.
Qed.

Lemma count_by_domain (rows : list Note.t) :
  (length (filter (λ n, Note.domain n = PHYSICS) rows)
   + length (filter (λ n, Note.domain n = SECURITY) rows)
   + length (filter (λ n, Note.domain n = PHILOSOPHY) rows)
   + length (filter (λ n, Note.domain n = PERSONAL) rows)
   + length (filter (λ n, Note.domain n = OTHER) rows) = length rows)%nat.
Proof.
  induction rows as [|n rows IH]; [done|].
  rewrite !filter_cons. destruct (Note.domain n) eqn:E;
    repeat (destruct (decide _); try done); simpl; lia.
Qed.

(** X11: in the statistics the three counts by type add up to the number
    of notes; a domain is a key of [by_domain] exactly when some note has
    it, its value is then the number of those notes, and these numbers
    add up to the number of notes as well. *)
Theorem statistics_add_up (t : Z) (s : db) :
  let st := get_statistics t s in
  (Statistics.ideas st + Statistics.questions st + Statistics.definitions st
   = Statistics.total_notes st)%nat
  ∧ Statistics.total_notes st = length (notes s)
  ∧ (∀ d, Statistics.by_domain st !! Domain_value d
          = if decide (count_domain d s = 0%nat) then None else Some (count_domain d s))
  ∧ (foldr (λ d acc, default 0%nat (Statistics.by_domain st !! Domain_value d) + acc)%nat
       0%nat Domain_members = Statistics.total_notes st).
Proof.
  cbv zeta. unfold get_statistics.
  cbn [Statistics.ideas Statistics.questions Statistics.definitions
       Statistics.total_notes Statistics.by_domain].
  split; [apply count_by_type|]. split; [done|].
  assert (Hlook : ∀ d, domain_counts Domain_members s ∅ !! Domain_value d
            = if decide (count_domain d s = 0%nat) then None else Some (count_domain d s)).
  { intros d. unfold domain_counts, Domain_members, count_domain.
    destruct d; simpl;
      repeat (destruct (decide (0 < _)%nat));
      repeat (destruct (decide (_ = 0%nat))); try lia;
      by simplify_map_eq. }
  split; [exact Hlook|].
  set (m := domain_counts Domain_members s ∅) in *.
  unfold Domain_members. cbn [foldr]. rewrite !Hlook.
  pose proof (count_by_domain (notes s)) as Hsum.
  unfold count_domain in *.
  repeat (destruct (decide (_ = 0%nat))); simpl; lia.
Qed.

Lemma statistics_add_up_witness :
  Statistics.by_domain (get_statistics 9 sample) !! "physics" = Some 1%nat
  ∧ Statistics.by_domain (get_statistics 9 sample) !! "other" = None.
Proof.
  destruct (statistics_add_up 9 sample) as (_ & _ & H & _).
  split; [apply (H PHYSICS)|apply (H OTHER)].
Defined.

(** ** [get_graph_data] without a filter *)

Lemma graph_edges_ids ls es :
  graph_edges ls = Ok es → GraphEdge.id <$> es = Link.id <$> ls.
Proof.
  revert es. induction ls as [|l ls IH]; intros es Hes; simpl in Hes.
  - by injection Hes as <-.
  - destruct (graph_edge l) as [e|] eqn:He; [|done]. simpl in Hes.
    destruct (graph_edges ls) as [es'|]; [|done]. injection Hes as <-.
    apply graph_edge_ok in He as (_ & _ & Hi & _).
    rewrite !fmap_cons, Hi. f_equal. by apply IH.
Qed.

(** X12: on a consistent store the unfiltered graph has one node per note
    and an edge for every link whose two ends are set. *)
Theorem full_graph_complete (s : db) :
  consistent s →
  ∃ g, get_graph_data None s = Ok g
       ∧ GraphNode.id <$> GraphResponse.nodes g = Note.id <$> notes s
       ∧ GraphEdge.id <$> GraphResponse.edges g
         = Link.id <$> filter (λ l, is_Some (endpoints l)) (links s)
       ∧ ∀ l f t', l ∈ links s → joins f t' l →
           GraphEdge.mk (Link.id l) f t' (Link.relation l) ∈ GraphResponse.edges g.
Proof.
  intros Hs. unfold get_graph_data.
  set (ids := Note.id <$> notes s).
  assert (Hsame : filter (λ l, in_ (Link.from_id l) ids ∧ in_ (Link.to_id l) ids) (links s)
                  = filter (λ l, is_Some (endpoints l)) (links s)).
  { apply filter_agree. intros l Hl. unfold endpoints. split.
    - intros [(f & -> & _)%in__Some (t' & -> & _)%in__Some]. eauto.
    - intros [p Hp]. destruct (Link.from_id l) as [f|] eqn:Ef; [|done].
      destruct (Link.to_id l) as [t'|] eqn:Et; [|done]. simpl.
      split; [apply (links_attached s Hs l f Hl); by left
             |apply (links_attached s Hs l t' Hl); by right]. }
  rewrite Hsame.
  destruct (graph_edges_ok (filter (λ l, is_Some (endpoints l)) (links s)))
    as (es & Hes & Hin).
  { apply Forall_forall. intros l [[p Hp] _]%list_elem_of_filter. unfold endpoints in Hp.
    destruct (Link.from_id l), (Link.to_id l); by eauto. }
  assert (Hids : GraphEdge.id <$> es
                 = Link.id <$> filter (λ l, is_Some (endpoints l)) (links s)).
  { by apply graph_edges_ids. }
  rewrite Hes. simpl. eexists. split; [done|]. simpl.
  split; [by rewrite <- list_fmap_compose|]. split; [exact Hids|].
  intros l f t' Hl [Hf Ht]. apply Hin. exists l. split.
  - apply list_elem_of_filter. split; [|done]. unfold endpoints. rewrite Hf, Ht. eauto.
  - by apply graph_edge_ok.
Qed.

Lemma full_graph_complete_witness :
  ∃ g, get_graph_data None sample = Ok g
       ∧ GraphEdge.mk "l1" "x" "y" SUPPORTS ∈ GraphResponse.edges g.
Proof.
  destruct (full_graph_complete sample sample_consistent) as (g & Hg & _ & _ & H).
  exists g. split; [exact Hg|]. apply (H link_xy "x" "y"); [by left|done].
Defined.

(** ** Pages of [get_all_notes] *)

(** X13: consecutive pages tile the listing: for bounds that are not
    negative and whose sums fit a signed 64-bit integer, the page of [a]
    notes after [skip] followed by the page of [b] notes after [skip + a]
    is the page of [a + b] notes after [skip]. *)
Theorem pages_tile (engine : negative_paging) (skip a b : Z)
    (domain : option Domain) (note_type : option NoteType) (s : db) :
  0 ≤ skip → 0 ≤ a → 0 ≤ b → skip + a < 2 ^ 63 → a + b < 2 ^ 63 →
  ∃ p1 p2,
    get_all_notes engine skip a domain note_type s = Ok p1
    ∧ get_all_notes engine (skip + a) b domain note_type s = Ok p2
    ∧ get_all_notes engine skip (a + b) domain note_type s = Ok (p1 ++ p2).
Proof.
  intros Hs Ha Hb Hsa Hab. unfold get_all_notes, offset_limit, int64.
  repeat (rewrite (decide_True (P := _ ∧ _)) by lia).
  eexists _, _. split; [done|]. split; [done|].
  f_equal. rewrite !Z2Nat.inj_add by lia.
  rewrite <- drop_drop. by rewrite take_take_drop.
Qed.

Lemma pages_tile_witness :
  ∃ p1 p2,
    get_all_notes Rejected 0 1 None None sample = Ok p1
    ∧ get_all_notes Rejected (0 + 1) 1 None None sample = Ok p2
    ∧ get_all_notes Rejected 0 (1 + 1) None None sample = Ok (p1 ++ p2).
Proof. apply (pages_tile Rejected 0 1 1 None None sample); lia. Defined.

End StoreLaws.

(** * Further properties of the graph builder and its handler *)

Module GraphLaws.
Import Graph GraphSpec GraphFacts Handler.

(** ** Extending the collection *)

Lemma nodes_from_seen notes (S T : gset string) :
  nodes_from notes (S ∪ T) = filter (λ n, node_id n ∉ S) (nodes_from notes T).
Proof.
  revert T. induction notes as [|x rest IH]; intros T; [done|]. simpl.
  destruct (declared_id x) as [s|]; [|apply IH].
  destruct (decide (s ∈ T)) as [HT|HT].
  { rewrite decide_True by (apply elem_of_union; by right). apply IH. }
  destruct (decide (s ∈ S)) as [HS|HS].
  - rewrite decide_True by (apply elem_of_union; by left).
    rewrite filter_cons_False by (simpl; tauto).
    rewrite <- IH. f_equal. apply set_eq. intros y.
    rewrite !elem_of_union, elem_of_singleton. naive_solver.
  - rewrite decide_False by (rewrite elem_of_union; tauto).
    rewrite filter_cons_True by done. f_equal.
    rewrite <- IH. f_equal. apply set_eq. intros y.
    rewrite !elem_of_union, elem_of_singleton. tauto.
Qed.

Lemma nodes_from_app l1 l2 (T : gset string) :
  nodes_from (l1 ++ l2) T
  = nodes_from l1 T ++ nodes_from l2 (node_ids (nodes_from l1 T) ∪ T).
Proof.
  revert T. induction l1 as [|x rest IH]; intros T; simpl.
  { f_equal. unfold node_ids. simpl. apply set_eq. intros y.
    rewrite elem_of_union, elem_of_empty. tauto. }
  destruct (declared_id x) as [s|]; [|apply IH].
  destruct (decide (s ∈ T)) as [HT|HT]; [apply IH|].
  simpl. f_equal. rewrite IH. f_equal. f_equal.
  unfold node_ids. simpl. apply set_eq. intros y.
  rewrite !elem_of_union, elem_of_singleton. tauto.
Qed.

(** X14: when notes are appended to a collection, the graph of the longer
    collection starts with the nodes of the shorter one, followed by the
    nodes of the appended part whose identifier is new, and its edges are
    the edges of the two parts one after the other. *)
Theorem builder_append (l1 l2 : list json) (g : graph) :
  _build_graph_from_notes (l1 ++ l2) = Ok g →
  ∃ g1 g2,
    _build_graph_from_notes l1 = Ok g1
    ∧ _build_graph_from_notes l2 = Ok g2
    ∧ nodes g = nodes g1 ++ filter (λ n, node_id n ∉ node_ids (nodes g1)) (nodes g2)
    ∧ edges g = edges g1 ++ edges g2.
Proof.
  intros Hg. pose proof (build_graph_ok_notes _ _ Hg) as [H1 H2]%Forall_app.
  rewrite build_graph_notes in Hg by (by apply Forall_app).
  injection Hg as <-. rewrite !build_graph_notes by done.
  eexists _, _. split; [done|]. split; [done|]. simpl. split.
  - rewrite nodes_from_app. f_equal. apply nodes_from_seen.
  - apply bind_app.
Qed.

Lemma builder_append_witness :
  ∃ g1 g2,
    _build_graph_from_notes (take 1 example_notes) = Ok g1
    ∧ _build_graph_from_notes (drop 1 example_notes) = Ok g2
    ∧ nodes example_graph
      = nodes g1 ++ filter (λ n, node_id n ∉ node_ids (nodes g1)) (nodes g2).
Proof.
  destruct (builder_append (take 1 example_notes) (drop 1 example_notes) example_graph)
    as (g1 & g2 & H1 & H2 & Hn & _); [by vm_compute|].
  exists g1, g2. auto.
Defined.

(** ** Rebuilding from the nodes *)

Lemma node_json_id n : declared_id (node_json n) = usable_id (Some (JString (node_id n))).
Proof. unfold node_json. simpl. by simplify_map_eq. Qed.

Lemma node_json_node n : node_of (fields (node_json n)) (node_id n) = n.
Proof.
  unfold node_of, node_json. simpl. destruct n as [i t d]. simpl. f_equal; by simplify_map_eq.
Qed.

Lemma node_json_edges n : declared_edges (node_json n) = [].
Proof.
  unfold declared_edges, node_json.
  assert (({[ "id" := JString (node_id n); "title" := node_title n;
              "domain" := node_domain n ]} : gmap string json) !! "links" = None) as ->
    by (by simplify_map_eq).
  by destruct (usable_id _).
Qed.

Lemma nodes_from_json (ns : list node) (seen : gset string) :
  NoDup (node_id <$> ns) →
  (∀ n, n ∈ ns → node_id n ≠ "" ∧ node_id n ∉ seen) →
  nodes_from (node_json <$> ns) seen = ns.
Proof.
  revert seen. induction ns as [|n ns IH]; intros seen Hnd Hok; [done|].
  rewrite fmap_cons in *. apply NoDup_cons in Hnd as [Hn Hnd].
  destruct (Hok n) as [Hne Hseen]; [by left|].
  cbn [nodes_from]. rewrite node_json_id. cbv beta iota delta [usable_id].
  rewrite (decide_False (P := node_id n = "")) by done.
  rewrite decide_False by done. rewrite node_json_node. f_equal.
  apply IH; [done|]. intros m Hm. destruct (Hok m) as [? ?]; [by right|].
  split; [done|]. rewrite not_elem_of_union, not_elem_of_singleton. split; [|done].
  intros Heq. apply Hn. rewrite <- Heq. by apply list_elem_of_fmap_2.
Qed.

Lemma usable_id_nonempty x s : usable_id x = Some s → s ≠ "".
Proof.
  unfold usable_id. destruct x as [[| | |s'| |]|]; try done.
  destruct (decide (s' = "")); [done|]. by intros [= <-].
Qed.

(** X15: the nodes of a graph the builder returns, sent back as notes,
    give the same nodes again and no edge. *)
Theorem builder_nodes_round_trip (notes : list json) (g : graph) :
  _build_graph_from_notes notes = Ok g →
  _build_graph_from_notes (node_json <$> nodes g) = Ok (mk_graph (nodes g) []).
Proof.
  intros Hg. pose proof (build_graph_ok_notes _ _ Hg) as Hall.
  rewrite build_graph_notes in Hg by done. injection Hg as <-. simpl.
  rewrite build_graph_notes.
  2:{ apply Forall_fmap, Forall_forall. by intros n _. }
  f_equal. f_equal.
  - apply nodes_from_json; [apply nodes_from_NoDup|].
    intros n Hn. split; [|apply not_elem_of_empty].
    apply nodes_from_first in Hn as (_ & i & d & _ & [(x & _ & Hx) _] & _).
    destruct x; try done. simpl in Hx. by eapply usable_id_nonempty.
  - induction (nodes_from notes ∅) as [|n ns IH]; [done|].
    rewrite fmap_cons. cbn [mbind list_bind]. by rewrite node_json_edges, IH.
Qed.

Lemma builder_nodes_round_trip_witness :
  _build_graph_from_notes (node_json <$> nodes example_graph)
  = Ok (mk_graph (nodes example_graph) []).
Proof. apply (builder_nodes_round_trip example_notes example_graph). by vm_compute. Defined.

End GraphLaws.

Module HandlerLaws.
Import Graph GraphSpec GraphFacts Handler.

(** X16: [POST /api/graph] on a JSON object answers 200 with the graph of
    the builder when ["notes"] is a list of note objects, answers 400 when
    ["notes"] is missing or is not a list, and raises, writing no answer,
    when the list holds an entry that is not a note object. *)
Theorem graph_post_outcomes (d : gmap string json) :
  let r := GraphHandler.do_POST (JDict d) in
  (∀ l, d !! "notes" = Some (JList l) → Forall is_note l →
     ∃ g, _build_graph_from_notes l = Ok g
          ∧ r = Ok (mk_response 200
                      (JDict {[ "graph" := graph_json g;
                                "message" := JString "Graph computed from provided notes (stateless)." ]})))
  ∧ (∀ l, d !! "notes" = Some (JList l) → ¬ Forall is_note l → ¬ is_ok r)
  ∧ ((∀ l, d !! "notes" ≠ Some (JList l)) →
     r = Ok (bad_request "'notes' must be a list of note objects")).
Proof.
  simpl. split; [|split].
  - intros l -> Hall. rewrite (build_graph_notes l Hall). eexists. split; [done|]. done.
  - intros l -> Hbad Hok.
    destruct (_build_graph_from_notes l) as [g|] eqn:E; [|done].
    by apply Hbad, (build_graph_ok_notes l g).
  - intros Hno. destruct (d !! "notes") as [[| | | |l|]|]; try done. by destruct (Hno l).
Qed.

Lemma graph_post_outcomes_witness :
  (∃ g, GraphHandler.do_POST (JDict {[ "notes" := JList example_notes ]})
        = Ok (mk_response 200
                (JDict {[ "graph" := graph_json g;
                          "message" := JString "Graph computed from provided notes (stateless)." ]})))
  ∧ GraphHandler.do_POST (JDict {[ "notes" := JString "a" ]})
    = Ok (bad_request "'notes' must be a list of note objects").
Proof.
  destruct (graph_post_outcomes {[ "notes" := JList example_notes ]}) as (H1 & _).
  destruct (graph_post_outcomes {[ "notes" := JString "a" ]}) as (_ & _ & H3).
  split.
  - destruct (H1 example_notes) as (g & _ & Hg); [by vm_compute|by repeat constructor|].
    by exists g.
  - apply H3. intros l. by vm_compute.
Defined.

(** X17: [POST /api/graph] answers 400 when the body read is [None]; on
    a parsed value that is neither [None] nor a JSON object it raises
    [AttributeError] on [body.get], and no answer is written. *)
Theorem non_object_body (body : json) :
  (body = JNull →
   GraphHandler.do_POST body = Ok (bad_request "Invalid or missing JSON body"))
  ∧ (body ≠ JNull → ¬ is_note body →
     ∃ msg, GraphHandler.do_POST body = Raise (AttributeError msg)
            ∧ get body "notes" = Raise (AttributeError msg)).
Proof.
  split.
  - by intros ->.
  - intros Hnull Hobj. destruct body; try done; by eexists.
Qed.

Lemma non_object_body_witness :
  ∃ msg, GraphHandler.do_POST (JList [JNumber 1]) = Raise (AttributeError msg).
Proof.
  destruct (non_object_body (JList [JNumber 1])) as [_ H].
  destruct H as (msg & Hg & _); [done|simpl; tauto|].
  by exists msg.
Defined.

End HandlerLaws.
